(** * ETH_faser: bulk variable loader and category filter

    A shallow embedding of [Utils/event_filter.py] (whose first 67 lines are
    also [Utils/extract_features_all_ev.py]): the per-file task
    [load_variables], the batch loader [load_variables_from_npz] and the
    category filter [create_masked_dict]; and of the text table of
    [Utils/ID_events.py]: the lines [save_ID_event] writes and their reader
    [get_event_ID].

    Python dictionaries are finite maps with string keys, [print] appends a
    line to an explicit list of output lines, and an exception that leaves a
    function is the [Raise] case of [result].  The file system, the archives
    in it and the host's CPU count form an explicit [world]. *)

From stdpp Require Import gmap strings list fin_maps.
From Stdlib Require Import ZArith Lia Ascii DecimalString DecimalZ DecimalPos.

Local Open Scope string_scope.
Local Open Scope list_scope.
Local Open Scope Z_scope.

(** ** Exceptions and results *)

Inductive exn :=
  | OSError (msg : string)      (* FileNotFoundError, NotADirectoryError, ... *)
  | ValueError (msg : string)
  | KeyError (key : string)
  | IndexError (msg : string).

Inductive result (A : Type) :=
  | Ok (a : A)
  | Raise (e : exn).
Arguments Ok {A} a.
Arguments Raise {A} e.

Definition bind_result {A B} (r : result A) (k : A → result B) : result B :=
  match r with
  | Ok a => k a
  | Raise e => Raise e
  end.

Notation "x ←! r ; k" := (bind_result r (fun x => k))
  (at level 100, r at next level, k at level 200, right associativity,
   format "x  ←!  r ;  '/' k").

Definition is_Ok {A} (r : result A) : Prop := ∃ a, r = Ok a.

(** ** NumPy arrays *)

(** Element types of the numeric arrays an archive holds. *)
Inductive dtype :=
  | np_bool
  | np_int8 | np_int16 | np_int32 | np_int64
  | np_uint8 | np_uint16 | np_uint32 | np_uint64
  | np_float16 | np_float32 | np_float64.

Global Instance dtype_eq_dec : EqDecision dtype.
Proof. solve_decision. Defined.

(** What the code needs from an array element: the cast NumPy applies when an
    array is rebuilt with [dtype=np.float32], and [==] against a Python
    integer literal.  A number equals at most one integer. *)
Class NumpyScalar (T : Type) := {
  astype_float32 : dtype → T → T;
  eq_int : T → Z → bool;
  eq_int_inj : ∀ x a b, eq_int x a = true → eq_int x b = true → a = b
}.

(** Integer-valued data.  The cast to float32 keeps 24 significant bits and
    rounds to nearest, ties to even (every 64-bit integer is in range). *)
Definition round_float32 (z : Z) : Z :=
  let n := Z.abs z in
  if n <? 2 ^ 24 then z
  else
    let k := Z.log2 n - 23 in
    let q := n / 2 ^ k in
    let r := n mod 2 ^ k in
    let half := 2 ^ (k - 1) in
    let q' := if (half <? r) || ((r =? half) && Z.odd q) then q + 1 else q in
    Z.sgn z * (q' * 2 ^ k).

Global Instance Z_scalar : NumpyScalar Z := {|
  astype_float32 := fun _ z => round_float32 z;
  eq_int := Z.eqb;
  eq_int_inj := fun x a b Ha Hb =>
    eq_trans (eq_sym (proj1 (Z.eqb_eq x a) Ha)) (proj1 (Z.eqb_eq x b) Hb)
|}.

Record ndarray (T : Type) := mk_ndarray {
  arr_dtype : dtype;
  arr_shape : list nat;
  arr_data : list T              (* row-major *)
}.
Arguments mk_ndarray {T} _ _ _.
Arguments arr_dtype {T} _.
Arguments arr_shape {T} _.
Arguments arr_data {T} _.

(** The value a field of the output table can have. *)
Inductive column (T : Type) :=
  | NumericArray (a : ndarray T)
      (* an ndarray with a numeric dtype *)
  | ObjectArray (shape : list nat) (items : list (ndarray T))
      (* an ndarray with dtype=object, built from [items] *)
  | PyList (items : list (ndarray T)).
      (* the Python list, where the conversion raised *)
Arguments NumericArray {T} a.
Arguments ObjectArray {T} shape items.
Arguments PyList {T} items.

(** [len(...)] of a field value. *)
Definition column_len {T} (c : column T) : nat :=
  match c with
  | NumericArray a => hd 0%nat (arr_shape a)
  | ObjectArray sh _ => hd 0%nat sh
  | PyList l => length l
  end.

(** ** The world: directory listings, archives, CPU count *)

(** A member of an opened archive is read on access; the read can raise. *)
Inductive npz_member (T : Type) :=
  | Readable (a : ndarray T)
  | Unreadable (err : string).
Arguments Readable {T} a.
Arguments Unreadable {T} err.

(** [with np.load(file) as data]: either entering the block raises an
    [Exception] (missing or corrupt file, not an archive), or [data] maps
    member names to members.  [err] is the text of the exception. *)
Inductive np_load_result (T : Type) :=
  | LoadError (err : string)
  | NpzFile (members : gmap string (npz_member T)).
Arguments LoadError {T} err.
Arguments NpzFile {T} members.

Record world (T : Type) := mk_world {
  listdir : string → result (list string);  (* os.listdir *)
  np_load : string → np_load_result T;      (* np.load *)
  cpu_count : option positive               (* os.cpu_count() *)
}.
Arguments mk_world {T} _ _ _.
Arguments listdir {T} _ _.
Arguments np_load {T} _ _.
Arguments cpu_count {T} _.

(** ** Strings and paths *)

(** [s.endswith(suffix)] *)
Definition endswith (s suffix : string) : bool :=
  let n := String.length s in
  let k := String.length suffix in
  if (k <=? n)%nat then String.eqb (String.substring (n - k) k s) suffix else false.

(** [os.path.join(a, b)] on a POSIX host. *)
Definition path_join (a b : string) : string :=
  if String.prefix "/" b then b
  else if String.eqb a "" || endswith a "/" then a +:+ b
  else a +:+ "/" +:+ b.

(** [l[:k]] *)
Definition slice_to {A} (k : Z) (l : list A) : list A :=
  if 0 <=? k then take (Z.to_nat k) l
  else take (Z.to_nat (Z.of_nat (length l) + k)) l.

(** [{var: f(var) for var in names}] *)
Definition dict_comp {V} (f : string → V) (names : list string) : gmap string V :=
  foldl (fun acc var => <[var := f var]> acc) ∅ names.

Section Loader.
Context {T : Type} `{NumpyScalar T}.

(** ** [load_variables] *)

(** The dictionary comprehension of line 14, member by member; the first read
    that raises ends it with that exception's message. *)
Fixpoint read_fields (data : gmap string (npz_member T)) (names : list string)
    (acc : gmap string (option (ndarray T)))
    : string + gmap string (option (ndarray T)) :=
  match names with
  | [] => inr acc
  | var :: rest =>
      match data !! var with
      | None => read_fields data rest (<[var := None]> acc)
      | Some (Readable a) => read_fields data rest (<[var := Some a]> acc)
      | Some (Unreadable err) => inl err
      end
  end.

(** The body of the [try] block: [inl e] when it raises [e]. *)
Definition try_load (w : world T) (file : string) (names : list string)
    : string + gmap string (option (ndarray T)) :=
  match np_load w file with
  | LoadError err => inl err
  | NpzFile data => read_fields data names ∅
  end.

Definition load_variables (w : world T) (file_variables_tuple : string * list string)
    : list string * gmap string (option (ndarray T)) :=
  let '(file, variable_names) := file_variables_tuple in
  match try_load w file variable_names with
  | inr d => ([], d)
  | inl e =>
      (["Error loading " +:+ file +:+ ": " +:+ e],
       dict_comp (fun _ => None) variable_names)
  end.

(** What an archive offers, read off the world: does every requested member
    that is there read without an exception, and which array does [var] name. *)
Definition loads_cleanly (w : world T) (names : list string) (file : string) : bool :=
  match np_load w file with
  | LoadError _ => false
  | NpzFile data =>
      forallb (fun var =>
                 match data !! var with
                 | Some (Unreadable _) => false
                 | _ => true
                 end) names
  end.

Definition member_array (w : world T) (file var : string) : option (ndarray T) :=
  match np_load w file with
  | NpzFile data =>
      match data !! var with
      | Some (Readable a) => Some a
      | _ => None
      end
  | LoadError _ => None
  end.

(** ** [np.array] on a list of arrays *)

(** [np.array(l, dtype=np.float32)] for arrays of one shape [s]: an array of
    shape [len(l) :: s] whose elements are cast to float32. *)
Definition np_array_float32 (l : list (ndarray T)) : column T :=
  NumericArray
    (mk_ndarray np_float32
       (length l :: match l with a :: _ => arr_shape a | [] => [] end)
       (concat ((fun a => astype_float32 (arr_dtype a) <$> arr_data a) <$> l))).

Fixpoint common_prefix (a b : list nat) : list nat :=
  match a, b with
  | x :: a', y :: b' => if decide (x = y) then x :: common_prefix a' b' else []
  | _, _ => []
  end.

(** The dimensions NumPy's shape discovery keeps below the list itself: the
    longest prefix all element shapes share. *)
Definition discovered_dims (shapes : list (list nat)) : list nat :=
  match shapes with
  | [] => []
  | s :: rest => foldl common_prefix s rest
  end.

(** Array assignment drops unit dimensions from the left of the source while
    it has more dimensions than the destination. *)
Fixpoint strip_unit_dims (n : nat) (s : list nat) : list nat :=
  match n, s with
  | S n', 1%nat :: s' => strip_unit_dims n' s'
  | _, _ => s
  end.

(** Can an array of shape [src] be assigned to a slot of shape [dst]? *)
Definition assignable (dst src : list nat) : bool :=
  let src' := strip_unit_dims (length src - length dst) src in
  bool_decide (length src' = length dst) &&
  forallb (fun '(d, q) => bool_decide (d = q) || bool_decide (d = 1%nat))
          (zip src' dst).

(** [np.array(l, dtype=object)].  With no shared leading dimension the result
    is a one-dimensional array whose slots hold the arrays themselves.
    Otherwise NumPy allocates [len(l) :: shared] scalar slots and assigns
    every array into its sub-block, which raises for an array that does not
    fit.  (NumPy's message goes on to name the two shapes.) *)
Definition np_array_object (l : list (ndarray T)) : result (column T) :=
  match l with
  | [] => Ok (ObjectArray [0%nat] [])
  | _ =>
      let shapes := arr_shape <$> l in
      let p := discovered_dims shapes in
      match p with
      | [] => Ok (ObjectArray [length l] l)
      | _ =>
          if forallb (assignable p) shapes
          then Ok (ObjectArray (length l :: p) l)
          else Raise (ValueError "could not broadcast input array")
      end
  end.

(** ** [load_variables_from_npz] *)

(** Lines 29-37: the files the batch works on. *)
Definition discover (folder_path : string) (listing : list string) : list string :=
  path_join folder_path <$> filter (fun f => endswith f ".npz" = true) listing.

Definition select_files (folder_path : string) (listing : list string)
    (num_files : option Z) (file_selected : option (list string)) : list string :=
  let file_list := discover folder_path listing in
  let file_list :=
    match num_files with
    | Some k => slice_to k file_list
    | None => file_list
    end in
  match file_selected with
  | Some sel => sel
  | None => file_list
  end.

(** [Pool(processes=n)] refuses [n < 1]. *)
Definition Pool (processes : Z) : result unit :=
  if processes <? 1
  then Raise (ValueError "Number of processes must be at least 1")
  else Ok tt.

(** [os.cpu_count() or 1] *)
Definition cpu_count_or_1 (w : world T) : Z :=
  match cpu_count w with
  | Some n => Z.pos n
  | None => 1
  end.

(** Lines 48-52.  Every entry comes from [load_variables] with the same
    [variable_names], so [entry[var]] finds its key. *)
Definition append_entry (variable_names : list string)
    (data_dict : gmap string (list (ndarray T)))
    (entry : gmap string (option (ndarray T))) : gmap string (list (ndarray T)) :=
  foldl (fun dd var =>
           match entry !! var with
           | Some (Some a) => alter (fun l => l ++ [a]) var dd
           | _ => dd
           end)
        data_dict variable_names.

(** What one per-file result adds to the list of [var]. *)
Definition entry_value (entry : gmap string (option (ndarray T))) (var : string)
    : option (ndarray T) :=
  match entry !! var with Some (Some a) => Some a | _ => None end.

Definition aggregate (variable_names : list string)
    (data_list : list (gmap string (option (ndarray T))))
    : gmap string (list (ndarray T)) :=
  foldl (append_entry variable_names) (dict_comp (fun _ => []) variable_names) data_list.

(** Lines 58-63, the body of the [try]. *)
Definition np_convert (l : list (ndarray T)) : result (column T) :=
  let sample_shape : gset (list nat) := list_to_set (arr_shape <$> l) in
  if decide (size sample_shape = 1%nat)
  then Ok (np_array_float32 l)
  else np_array_object l.

Definition exn_message (e : exn) : string :=
  match e with
  | OSError m | ValueError m | IndexError m => m
  | KeyError k => "'" +:+ k +:+ "'"
  end.

(** Lines 55-65 for one field: the new value, and what is printed. *)
Definition convert_value (l : list (ndarray T)) : column T :=
  match np_convert l with
  | Ok c => c
  | Raise _ => PyList l
  end.

Definition convert_output (var : string) (l : list (ndarray T)) : list string :=
  match np_convert l with
  | Ok _ => []
  | Raise e => ["Error processing variable " +:+ var +:+ ": " +:+ exn_message e]
  end.

(** The keys of [{var: ... for var in names}] in iteration order. *)
Fixpoint dict_keys (names : list string) : list string :=
  match names with
  | [] => []
  | x :: rest => x :: filter (fun y => y ≠ x) (dict_keys rest)
  end.

(** Lines 39-67: the batch over a given file list.  The pool returns the
    per-file results in file order.  The workers print concurrently: their
    lines are listed here in file order, and what is stated about the output
    below does not depend on the order of the lines. *)
Definition load_file_list (w : world T) (variable_names : list string)
    (num_workers : Z) (file_list : list string)
    : result (list string * gmap string (column T)) :=
  let file_variables_tuples := (fun file => (file, variable_names)) <$> file_list in
  let num_workers := Z.min num_workers (cpu_count_or_1 w) in
  _ ←! Pool num_workers;
  let results := load_variables w <$> file_variables_tuples in
  let data_list := snd <$> results in
  let data_dict := aggregate variable_names data_list in
  let printed :=
    concat (fst <$> results) ++
    concat ((fun var => convert_output var (default [] (data_dict !! var)))
              <$> dict_keys variable_names) in
  Ok (printed, convert_value <$> data_dict).

(** The per-file results the pool hands back, and the arrays gathered for
    one field (the list [data_dict[var]] after line 52). *)
Definition data_list (w : world T) (variable_names : list string)
    (file_list : list string) : list (gmap string (option (ndarray T))) :=
  (fun file => (load_variables w (file, variable_names)).2) <$> file_list.

Definition contributed (w : world T) (variable_names : list string)
    (file_list : list string) (var : string) : list (ndarray T) :=
  default [] (aggregate variable_names (data_list w variable_names file_list) !! var).

Definition load_variables_from_npz (w : world T) (folder_path : string)
    (variable_names : list string) (num_workers : Z)
    (num_files : option Z) (file_selected : option (list string))
    : result (list string * gmap string (column T)) :=
  listing ←! listdir w folder_path;
  load_file_list w variable_names num_workers
    (select_files folder_path listing num_files file_selected).

End Loader.

Arguments load_variables_from_npz {T _} w folder_path variable_names
  num_workers num_files file_selected.

(** ** [create_masked_dict] *)

Section Filter.
Context {T : Type} `{NumpyScalar T}.

(** [data_filter[key]] *)
Definition getitem (data_filter : gmap string (list T)) (key : string)
    : result (list T) :=
  match data_filter !! key with
  | Some col => Ok col
  | None => Raise (KeyError key)
  end.

(** [col == k], element by element. *)
Definition np_eq (col : list T) (k : Z) : list bool :=
  (fun x => eq_int x k) <$> col.

(** An element-wise binary operator on one-dimensional arrays, with NumPy's
    broadcasting of a length-one operand. *)
Definition np_binary (f : bool → bool → bool) (a b : list bool)
    : result (list bool) :=
  if decide (length a = length b) then Ok (zip_with f a b)
  else
    match a, b with
    | [x], _ => Ok (f x <$> b)
    | _, [y] => Ok ((fun x => f x y) <$> a)
    | _, _ => Raise (ValueError "operands could not be broadcast together")
    end.

Definition np_and := np_binary andb.
Definition np_or := np_binary orb.

(** The rows of [col] at which [mask] is true. *)
Definition select_rows {A} (col : list A) (mask : list bool) : list A :=
  fst <$> filter (fun p => p.2 = true) (zip col mask).

(** [col[mask]] *)
Definition bool_index (col : list T) (mask : list bool) : result (list T) :=
  if decide (length mask = length col) then Ok (select_rows col mask)
  else Raise (IndexError "boolean index did not match indexed array").

(** Lines 99, 101, 103: the charged-current mask of one flavor code. *)
Definition flavor_mask (data_filter : gmap string (list T)) (code : Z)
    : result (list bool) :=
  cc ←! getitem data_filter "is_cc";
  pdg ←! getitem data_filter "in_neutrino_pdg";
  either ←! np_or (np_eq pdg code) (np_eq pdg (- code));
  np_and (np_eq cc 1) either.

(** Lines 97-107. *)
Definition category_mask (data_filter : gmap string (list T))
    (is_cc is_nu_e is_nu_mu is_nu_tau : Z) : result (list bool) :=
  if is_cc =? 1 then
    if negb (is_nu_e =? 0) then flavor_mask data_filter 12
    else if negb (is_nu_mu =? 0) then flavor_mask data_filter 14
    else if negb (is_nu_tau =? 0) then flavor_mask data_filter 16
    else cc ←! getitem data_filter "is_cc"; Ok (np_eq cc 1)
  else cc ←! getitem data_filter "is_cc"; Ok (np_eq cc 0).

(** The three flavors, their PDG codes and the flags that request one. *)
Inductive flavor := nu_e | nu_mu | nu_tau.

Definition pdg_code (fl : flavor) : Z :=
  match fl with nu_e => 12 | nu_mu => 14 | nu_tau => 16 end.

Definition flavor_flags (fl : flavor) : Z * Z * Z :=
  match fl with
  | nu_e => (1, 0, 0)
  | nu_mu => (0, 1, 0)
  | nu_tau => (0, 0, 1)
  end.

Definition msg_no_flavor : string :=
  "Error: When is_cc is 1, at least one of the neutrino types should be 1.".
Definition msg_many_flavors : string :=
  "Error: Only one neutrino type can be selected.".

(** The printed lines, and the returned dictionary or the exception. *)
Definition create_masked_dict (data_filter : gmap string (list T))
    (is_cc is_nu_e is_nu_mu is_nu_tau : Z)
    : list string * result (gmap string (list T)) :=
  let printed :=
    if (is_cc =? 1) && ((is_nu_e =? 0) && (is_nu_mu =? 0) && (is_nu_tau =? 0))
    then [msg_no_flavor] else [] in
  if is_nu_e + is_nu_mu + is_nu_tau >? 1 then
    (printed ++ [msg_many_flavors], Ok ∅)
  else
    (printed,
     mask ←! category_mask data_filter is_cc is_nu_e is_nu_mu is_nu_tau;
     run_number ←! getitem data_filter "run_number";
     run_number ←! bool_index run_number mask;
     event_id ←! getitem data_filter "event_id";
     event_id ←! bool_index event_id mask;
     Ok (<["event_id" := event_id]> (<["run_number" := run_number]> ∅))).

End Filter.

(** ** A small data set

    Three archives in one directory: two events and a file that is not an
    archive; a fourth archive has a member that cannot be read. *)

Module Scenario.

Definition scalar (d : dtype) (v : Z) : ndarray Z := mk_ndarray d [] [v].
Definition vector (d : dtype) (v : list Z) : ndarray Z :=
  mk_ndarray d [length v] v.

Definition file_A : gmap string (npz_member Z) :=
  list_to_map
    [("run_number", Readable (scalar np_int64 200025));
     ("event_id", Readable (scalar np_int64 16777217));
     ("is_cc", Readable (scalar np_bool 1));
     ("in_neutrino_pdg", Readable (scalar np_int32 14));
     ("hits", Readable (vector np_float64 [3; 1; 4]))].

Definition file_B : gmap string (npz_member Z) :=
  list_to_map
    [("run_number", Readable (scalar np_int64 200025));
     ("event_id", Readable (scalar np_int64 42));
     ("is_cc", Readable (scalar np_bool 0));
     ("hits", Readable (vector np_float64 [2; 7]))].

Definition file_D : gmap string (npz_member Z) :=
  list_to_map
    [("is_cc", Readable (scalar np_bool 1));
     ("labels", Unreadable "Object arrays cannot be loaded when allow_pickle=False")].

Definition w : world Z :=
  mk_world
    (fun d =>
       if String.eqb d "data"
       then Ok ["a.npz"; "b.npz"; "c.npz"; "notes.txt"]
       else Raise (OSError "[Errno 2] No such file or directory"))
    (fun f =>
       if String.eqb f "data/a.npz" then NpzFile file_A
       else if String.eqb f "data/b.npz" then NpzFile file_B
       else if String.eqb f "extra/d.npz" then NpzFile file_D
       else LoadError "File is not a zip file")
    (Some 8%positive).

Definition fields : list string :=
  ["run_number"; "event_id"; "is_cc"; "in_neutrino_pdg"].

(** A table with four aligned rows. *)
Definition table : gmap string (list Z) :=
  list_to_map
    [("run_number", [1; 1; 2; 2]);
     ("event_id", [10; 11; 12; 13]);
     ("is_cc", [1; 1; 0; 1]);
     ("in_neutrino_pdg", [14; -14; 14; 12])].

End Scenario.


(** ** [Utils/ID_events.py]: the text table of event identifiers

    [save_ID_event] writes run/event pairs of four categories to
    [id_events.txt] and [get_event_ID] reads one category back.  A text file
    is the list of its lines, as iterating over the file yields them, without
    the line ends ([strip] and [split] drop them anyway).  Text is ASCII. *)

Inductive py_error :=
  | OpenError (filename : string)     (* open(filename): no such file, ... *)
  | StopIteration                     (* next(f) at the end of the file *)
  | InvalidLiteral (literal : string) (* int(s): s does not spell an integer *)
  | NotAnInteger (msg : string).      (* int(x): x is nan or infinite *)

Inductive outcome (A : Type) :=
  | Returns (a : A)
  | Raises (e : py_error).
Arguments Returns {A} a.
Arguments Raises {A} e.

(** Characters [str.strip] and [str.split] treat as white space: tab, line
    feed, vertical tab, form feed, carriage return, the four separators 28-31
    and the space. *)
Definition is_space (c : ascii) : bool :=
  let n := nat_of_ascii c in
  ((9 <=? n) && (n <=? 13) || (28 <=? n) && (n <=? 32))%nat.

Fixpoint lstrip (s : string) : string :=
  match s with
  | String c s' => if is_space c then lstrip s' else s
  | EmptyString => EmptyString
  end.

Fixpoint rstrip (s : string) : string :=
  match s with
  | String c s' =>
      match rstrip s' with
      | EmptyString => if is_space c then EmptyString else String c EmptyString
      | r => String c r
      end
  | EmptyString => EmptyString
  end.

(** [s.strip()] *)
Definition strip (s : string) : string := rstrip (lstrip s).

(** [s.split()]: the maximal runs of characters that are not white space;
    [word] is the run being read. *)
Fixpoint split_from (word : string) (s : string) : list string :=
  match s with
  | String c s' =>
      if is_space c
      then match word with
           | EmptyString => split_from EmptyString s'
           | _ => word :: split_from EmptyString s'
           end
      else split_from (word +:+ String c EmptyString) s'
  | EmptyString =>
      match word with
      | EmptyString => []
      | _ => [word]
      end
  end.

Definition py_split (s : string) : list string := split_from EmptyString s.

(** [str(n)] for an integer. *)
Definition str_of_int (n : Z) : string := NilZero.string_of_int (Z.to_int n).

(** The digits of an integer literal: underscores may stand between two
    digits, one at a time.  [after_digit] tells whether the previous
    character was a digit. *)
Fixpoint literal_digits (after_digit : bool) (s : string) : option string :=
  match s with
  | EmptyString => if after_digit then Some EmptyString else None
  | String c s' =>
      if Ascii.eqb c "_"
      then if after_digit then literal_digits false s' else None
      else String c <$> literal_digits true s'
  end.

Definition unsigned_literal (s : string) : option Z :=
  digits ← literal_digits false s;
  Z.of_uint <$> NilEmpty.uint_of_string digits.

(** White space [int] skips around a literal: tab, line feed, vertical tab,
    form feed, carriage return and the space (not the separators 28-31). *)
Definition is_int_space (c : ascii) : bool :=
  let n := nat_of_ascii c in
  ((9 <=? n) && (n <=? 13) || (n =? 32))%nat.

Fixpoint int_lstrip (s : string) : string :=
  match s with
  | String c s' => if is_int_space c then int_lstrip s' else s
  | EmptyString => EmptyString
  end.

Fixpoint int_rstrip (s : string) : string :=
  match s with
  | String c s' =>
      match int_rstrip s' with
      | EmptyString => if is_int_space c then EmptyString else String c EmptyString
      | r => String c r
      end
  | EmptyString => EmptyString
  end.

(** [int(s)] for a string. *)
Definition int_of_str (s : string) : outcome Z :=
  let value :=
    match int_rstrip (int_lstrip s) with
    | String c body =>
        if Ascii.eqb c "-" then Z.opp <$> unsigned_literal body
        else if Ascii.eqb c "+" then unsigned_literal body
        else unsigned_literal (String c body)
    | EmptyString => None
    end in
  match value with
  | Some n => Returns n
  | None => Raises (InvalidLiteral s)
  end.

(** The fields of a row, separated by the delimiter [' ']. *)
Fixpoint join_space (fields : list string) : string :=
  match fields with
  | [] => EmptyString
  | [f] => f
  | f :: rest => f +:+ " " +:+ join_space rest
  end.

(** [f(x) for x in xs], stopping at the first exception. *)
Fixpoint map_outcome {A B} (f : A → outcome B) (xs : list A) : outcome (list B) :=
  match xs with
  | [] => Returns []
  | x :: rest =>
      match f x with
      | Raises e => Raises e
      | Returns y =>
          match map_outcome f rest with
          | Raises e => Raises e
          | Returns ys => Returns (y :: ys)
          end
      end
  end.

(** Strings all of whose characters satisfy [P]; the decimal digits. *)
Fixpoint all_chars (P : ascii → bool) (s : string) : bool :=
  match s with
  | EmptyString => true
  | String c s' => P c && all_chars P s'
  end.

Definition is_digit (c : ascii) : bool :=
  let n := nat_of_ascii c in ((48 <=? n) && (n <=? 57))%nat.

Section IDEvents.
Context {T : Type}.
(** [int(x)] for an array element. *)
Variable py_int : T → outcome Z.

(** Lines 44-54: [int(col[i] if i < len(col) else "000")]. *)
Definition id_cell (col : list T) (i : nat) : outcome Z :=
  match col !! i with
  | Some x => py_int x
  | None => Returns 0
  end.

Definition id_header : string :=
  "Run_e EventID_e Run_mu EventID_mu Run_tau EventID_tau".

(** Lines 43-57, one turn of the loop: the line written for row [i]. *)
Definition id_row (run_e event_e run_mu event_mu run_tau event_tau run_nc event_nc : list T)
    (i : nat) : outcome string :=
  match map_outcome (fun col => id_cell col i)
          [run_e; event_e; run_mu; event_mu; run_tau; event_tau; run_nc; event_nc] with
  | Returns cells => Returns (join_space (str_of_int <$> cells))
  | Raises e => Raises e
  end.

(** Rows [i], [i+1], ... of [n] rows in all: the lines written before the
    loop ends or an [int] raises. *)
Fixpoint id_rows_from (row : nat → outcome string) (i n : nat)
    : list string * option py_error :=
  match n with
  | O => ([], None)
  | S n' =>
      match row i with
      | Raises e => ([], Some e)
      | Returns line =>
          let '(lines, err) := id_rows_from row (S i) n' in
          (line :: lines, err)
      end
  end.

(** Lines 34-59 of [save_ID_event]: the lines that end up in
    [id_events.txt], and what is printed or raised. *)
Definition write_id_events
    (run_e event_e run_mu event_mu run_tau event_tau run_nc event_nc : list T)
    : list string * outcome (list string) :=
  let max_length :=
    Nat.max (Nat.max (length run_e) (length run_mu))
            (Nat.max (length run_tau) (length event_nc)) in
  let '(lines, err) :=
    id_rows_from
      (id_row run_e event_e run_mu event_mu run_tau event_tau run_nc event_nc)
      0 max_length in
  (id_header :: lines,
   match err with
   | Some e => Raises e
   | None => Returns ["File 'id_events.txt' has been saved."]
   end).

End IDEvents.

(** *** [get_event_ID] *)

Inductive neutrino_type := type_NC | type_e | type_mu | type_tau.

Definition neutrino_map (t : neutrino_type) : nat :=
  match t with type_NC => 0 | type_e => 1 | type_mu => 2 | type_tau => 3 end.

(** Truth of an integer argument. *)
Definition truthy (n : Z) : bool := negb (n =? 0).

(** Lines 72-74. *)
Definition select_neutrino_type (is_cc is_nu_e is_nu_mu is_nu_tau : Z) : neutrino_type :=
  if truthy is_cc && truthy is_nu_e then type_e
  else if truthy is_cc && truthy is_nu_mu then type_mu
  else if truthy is_cc && truthy is_nu_tau then type_tau
  else type_NC.

(** Lines 81-88: the loop over the lines after the header.  It returns what
    is printed, and the tuples gathered or the exception of an [int]. *)
Fixpoint read_id_lines (lines : list string) : list string * outcome (list (list Z)) :=
  match lines with
  | [] => ([], Returns [])
  | line :: rest =>
      let parts := py_split (strip line) in
      if decide (length parts = 8%nat) then
        match map_outcome int_of_str parts with
        | Raises e => ([], Raises e)
        | Returns event =>
            let '(printed, r) := read_id_lines rest in
            (printed,
             match r with
             | Returns events => Returns (event :: events)
             | Raises e => Raises e
             end)
        end
      else
        let '(printed, r) := read_id_lines rest in
        (("Skipping malformed line: " +:+ strip line) :: printed, r)
  end.

(** Line 92 for one tuple: its file name, unless the run number is 0. *)
Definition id_file_name (run event : Z) : option string :=
  if run =? 0 then None
  else Some (str_of_int run +:+ "_" +:+ str_of_int event +:+ ".npz").

(** Lines 92-94: the file names of the tuples, read at [index]. *)
Definition id_file_names (index : nat) (events_id : list (list Z)) : list string :=
  omap (fun event => id_file_name (nth index event 0) (nth (S index) event 0))
       events_id.

(** The file names of the events of one category, given by their run numbers
    and event identifiers. *)
Definition event_file_names (run event : list Z) : list string :=
  omap (fun p => id_file_name p.1 p.2) (zip run event).

(** [open_lines filename] is what [open(filename, 'r')] gives: the lines of
    the file, or the exception. *)
Definition get_event_ID (open_lines : string → outcome (list string))
    (is_cc is_nu_e is_nu_mu is_nu_tau : Z) (filename : string)
    : list string * outcome (list string) :=
  let neutrino_type := select_neutrino_type is_cc is_nu_e is_nu_mu is_nu_tau in
  match open_lines filename with
  | Raises e => ([], Raises e)
  | Returns [] => ([], Raises StopIteration)
  | Returns (_ :: lines) =>
      let '(printed, r) := read_id_lines lines in
      (printed,
       match r with
       | Raises e => Raises e
       | Returns events_id =>
           let index := (neutrino_map neutrino_type * 2)%nat in
           Returns (id_file_names index events_id)
       end)
  end.

(** ** A second data set: hits as two-dimensional arrays

    Two events whose [hits] have two rows each, with three and with four
    columns. *)

Module Tracks.

Definition hits_3 : ndarray Z := mk_ndarray np_float64 [2; 3]%nat [1; 2; 3; 4; 5; 6].
Definition hits_4 : ndarray Z :=
  mk_ndarray np_float64 [2; 4]%nat [1; 2; 3; 4; 5; 6; 7; 8].

Definition w : world Z :=
  mk_world
    (fun d => if String.eqb d "tracks" then Ok ["t1.npz"; "t2.npz"]
              else Raise (OSError "[Errno 2] No such file or directory"))
    (fun f =>
       if String.eqb f "tracks/t1.npz"
       then NpzFile (list_to_map [("hits", Readable hits_3);
                                  ("event_id", Readable (Scenario.scalar np_int64 5))])
       else if String.eqb f "tracks/t2.npz"
       then NpzFile (list_to_map [("hits", Readable hits_4);
                                  ("event_id", Readable (Scenario.scalar np_int64 6))])
       else LoadError "File is not a zip file")
    None.

Definition files : list string := ["tracks/t1.npz"; "tracks/t2.npz"].

(** The lines [save_ID_event] writes for one electron event, two muon events
    and one neutral-current event. *)
Definition id_lines : list string :=
  (write_id_events (T:=Z) Returns [7] [70] [8; 8] [80; 81] [] [] [9] [90]).1.

Definition open_lines (filename : string) : outcome (list string) :=
  if String.eqb filename "id_events.txt" then Returns id_lines
  else Raises (OpenError filename).


End Tracks.

(** * The model on small inputs *)

Example endswith_npz : endswith "200025_7.npz" ".npz" = true ∧ endswith "npz" ".npz" = false.
Proof. split; reflexivity. Qed.

Example path_join_cases :
  path_join "data" "a.npz" = "data/a.npz" ∧ path_join "data/" "a.npz" = "data/a.npz" ∧
  path_join "" "a.npz" = "a.npz".
Proof. repeat split; reflexivity. Qed.

(** A negative bound counts from the end, as Python's slices do. *)
Example slice_to_cases :
  slice_to 2 ["a"; "b"; "c"] = ["a"; "b"] ∧ slice_to 5 ["a"; "b"; "c"] = ["a"; "b"; "c"] ∧
  slice_to (-1) ["a"; "b"; "c"] = ["a"; "b"] ∧ slice_to (-4) ["a"; "b"; "c"] = [].
Proof. repeat split; reflexivity. Qed.

Example round_float32_cases :
  round_float32 200025 = 200025 ∧ round_float32 16777217 = 16777216 ∧
  round_float32 (-123456789) = -123456792.
Proof. repeat split; reflexivity. Qed.

(** Arrays of shapes (3,) and (2,) become a one-dimensional object array;
    shapes (2,3) and (2,4) share the leading 2 and are refused. *)
Example np_array_object_cases :
  np_array_object [Scenario.vector np_float64 [3; 1; 4]; Scenario.vector np_float64 [2; 7]]
  = Ok (ObjectArray [2%nat]
          [Scenario.vector np_float64 [3; 1; 4]; Scenario.vector np_float64 [2; 7]]) ∧
  np_array_object [mk_ndarray np_int8 [2; 3]%nat [1; 2; 3; 4; 5; 6];
                   mk_ndarray np_int8 [2; 4]%nat [1; 2; 3; 4; 5; 6; 7; 8]]
  = Raise (ValueError "could not broadcast input array").
Proof. split; reflexivity. Qed.

(** Charged-current muon events of the four-row table. *)
Example create_masked_dict_cc_mu :
  create_masked_dict Scenario.table 1 0 1 0
  = ([], Ok (<["event_id" := [10; 11]]> (<["run_number" := [1; 1]]> ∅))).
Proof. reflexivity. Qed.

(** * Properties of the category filter *)

Section FilterProofs.
Context {T : Type} `{NumpyScalar T}.
Implicit Types (cc pdg : list T) (data_filter : gmap string (list T)).

Lemma np_eq_length (col : list T) k : length (np_eq col k) = length col.
Proof. unfold np_eq. by rewrite length_fmap. Qed.

Lemma np_binary_aligned f (a b : list bool) :
  length a = length b → np_binary f a b = Ok (zip_with f a b).
Proof. intros Hl. unfold np_binary. by rewrite decide_True. Qed.

Lemma flavor_rows cc pdg (c : Z) :
  zip_with andb (np_eq cc 1) (zip_with orb (np_eq pdg c) (np_eq pdg (- c)))
  = zip_with (fun x y => eq_int x 1 && (eq_int y c || eq_int y (- c))) cc pdg.
Proof.
  revert pdg. induction cc as [|x cc IH]; intros [|y pdg]; simpl; try done.
  by rewrite IH.
Qed.

Lemma flavor_mask_aligned data_filter cc pdg c :
  data_filter !! "is_cc" = Some cc →
  data_filter !! "in_neutrino_pdg" = Some pdg →
  length cc = length pdg →
  flavor_mask data_filter c
  = Ok (zip_with (fun x y => eq_int x 1 && (eq_int y c || eq_int y (- c))) cc pdg).
Proof.
  intros Hcc Hpdg Hlen. unfold flavor_mask, getitem. rewrite Hcc, Hpdg. simpl.
  unfold np_or, np_and. rewrite np_binary_aligned by (by rewrite !np_eq_length).
  simpl. rewrite np_binary_aligned.
  - by rewrite flavor_rows.
  - rewrite length_zip_with, !np_eq_length. lia.
Qed.

Lemma np_binary_and_true (a b m : list bool) (i : nat) :
  np_and a b = Ok m → m !! i = Some true →
  a !! i = Some true ∨ a = [true].
Proof.
  unfold np_and, np_binary. case_decide as Hl.
  - intros [= <-] Hi. apply lookup_zip_with_Some in Hi as (x & y & Hxy & Hx & _).
    symmetry in Hxy. apply andb_true_iff in Hxy as [-> _]. by left.
  - assert (∀ (f : bool → bool) (l : list bool),
              (f <$> l) !! i = Some true → ∃ z, l !! i = Some z ∧ f z = true) as Hf.
    { intros f l Hi. rewrite list_lookup_fmap in Hi.
      destruct (l !! i) as [z|]; [|done]. exists z. by injection Hi. }
    destruct a as [|x [|x' a]].
    + destruct b as [|y [|y' b]]; cbv beta iota; try done.
      intros [= <-] Hi. by rewrite lookup_nil in Hi.
    + intros [= <-] Hi. apply Hf in Hi as (z & _ & Hz).
      apply andb_true_iff in Hz as [-> _]. by right.
    + destruct b as [|y [|y' b]]; cbv beta iota; try done.
      intros [= <-] Hi.
      change (((fun z => z && y) <$> (x :: x' :: a)) !! i = Some true) in Hi.
      apply Hf in Hi as (z & Hz & Hzy).
      apply andb_true_iff in Hzy as [-> _]. by left.
Qed.

Lemma flavor_mask_true data_filter c (m : list bool) (i : nat) :
  flavor_mask data_filter c = Ok m → m !! i = Some true →
  ∃ cc, data_filter !! "is_cc" = Some cc ∧
        (np_eq cc 1 !! i = Some true ∨ np_eq cc 1 = [true]).
Proof.
  unfold flavor_mask, getitem.
  destruct (data_filter !! "is_cc") as [cc|]; [|done].
  destruct (data_filter !! "in_neutrino_pdg") as [pdg|]; [|done]. simpl.
  destruct (np_or _ _) as [either|]; [|done]. simpl.
  intros Hm Hi. exists cc. split; [done|]. by eapply np_binary_and_true.
Qed.

Lemma cc_mask_true data_filter e m t (mask : list bool) (i : nat) :
  category_mask data_filter 1 e m t = Ok mask → mask !! i = Some true →
  ∃ cc, data_filter !! "is_cc" = Some cc ∧
        (np_eq cc 1 !! i = Some true ∨ np_eq cc 1 = [true]).
Proof.
  unfold category_mask. simpl.
  repeat (case_match; [by apply flavor_mask_true|]).
  unfold getitem. destruct (data_filter !! "is_cc") as [cc|]; [|done].
  simpl. intros [= <-] Hi. exists cc. by auto.
Qed.

Lemma nc_mask_eq data_filter is_cc e m t (mask : list bool) :
  is_cc ≠ 1 →
  category_mask data_filter is_cc e m t = Ok mask →
  ∃ cc, data_filter !! "is_cc" = Some cc ∧ mask = np_eq cc 0.
Proof.
  intros Hne. unfold category_mask, getitem.
  destruct (Z.eqb_spec is_cc 1) as [|_]; [done|].
  destruct (data_filter !! "is_cc") as [cc|]; [|done].
  simpl. intros [= <-]. by exists cc.
Qed.

Lemma np_eq_lookup_true (col : list T) k (i : nat) :
  np_eq col k !! i = Some true ↔ ∃ x, col !! i = Some x ∧ eq_int x k = true.
Proof.
  unfold np_eq. rewrite list_lookup_fmap. destruct (col !! i) as [x|]; simpl.
  - split; [intros [= Hx]; by exists x | intros (y & [= <-] & ->); done].
  - split; [done | intros (y & Hy & _); done].
Qed.

(** C4.  On any table, a charged-current mask (any flavor flags, or none) and a
    neutral-current mask never both select the same row. *)
Theorem cc_nc_masks_disjoint data_filter
    (is_nu_e is_nu_mu is_nu_tau is_cc' is_nu_e' is_nu_mu' is_nu_tau' : Z)
    (cc_mask nc_mask : list bool) :
  is_cc' ≠ 1 →
  category_mask data_filter 1 is_nu_e is_nu_mu is_nu_tau = Ok cc_mask →
  category_mask data_filter is_cc' is_nu_e' is_nu_mu' is_nu_tau' = Ok nc_mask →
  ∀ i : nat, ¬ (cc_mask !! i = Some true ∧ nc_mask !! i = Some true).
Proof.
  intros Hne Hcc Hnc i [Hi Hi'].
  destruct (cc_mask_true _ _ _ _ _ _ Hcc Hi) as (cc & Hcol & Hrow).
  destruct (nc_mask_eq _ _ _ _ _ _ Hne Hnc) as (cc' & Hcol' & ->).
  assert (cc' = cc) as -> by congruence.
  apply np_eq_lookup_true in Hi' as (x & Hx & Hx0).
  destruct Hrow as [Hrow | Hone].
  - apply np_eq_lookup_true in Hrow as (y & Hy & Hy1).
    assert (y = x) as -> by congruence.
    by pose proof (eq_int_inj _ _ _ Hx0 Hy1).
  - destruct cc as [|y [|y' cc]]; try done. injection Hone as Hy1.
    destruct i; [|done]. injection Hx as ->.
    by pose proof (eq_int_inj _ _ _ Hx0 Hy1).
Qed.

(** C5.  With flavor flags that are not negative (the docstring has them 0 or
    1) and at least two of them equal to 1, [create_masked_dict] prints the
    usage error of line 91 and returns the empty dictionary; it raises
    nothing, whatever the table holds. *)
Theorem many_flavors_usage_error data_filter (is_cc is_nu_e is_nu_mu is_nu_tau : Z) :
  0 ≤ is_nu_e → 0 ≤ is_nu_mu → 0 ≤ is_nu_tau →
  (is_nu_e = 1 ∧ is_nu_mu = 1) ∨ (is_nu_e = 1 ∧ is_nu_tau = 1) ∨
  (is_nu_mu = 1 ∧ is_nu_tau = 1) →
  create_masked_dict data_filter is_cc is_nu_e is_nu_mu is_nu_tau
  = ([msg_many_flavors], Ok ∅).
Proof.
  intros He Hm Ht Htwo. unfold create_masked_dict.
  assert ((is_nu_e + is_nu_mu + is_nu_tau >? 1) = true) as -> by lia.
  assert ((is_nu_e =? 0) && (is_nu_mu =? 0) && (is_nu_tau =? 0) = false) as ->.
  { destruct Htwo as [[-> ->]|[[-> ->]|[-> ->]]]; simpl; try done;
      by rewrite andb_false_r. }
  by rewrite andb_false_r.
Qed.
End FilterProofs.

(** The electron mask and the neutral-current mask of the four-row table share
    no row. *)
Lemma cc_nc_masks_disjoint_witness :
  category_mask Scenario.table 1 1 0 0 = Ok [false; false; false; true] ∧
  category_mask Scenario.table 0 0 0 0 = Ok [false; false; true; false] ∧
  ∀ i : nat, ¬ ([false; false; false; true] !! i = Some true ∧
                [false; false; true; false] !! i = Some true).
Proof.
  split; [reflexivity|]. split; [reflexivity|].
  apply (cc_nc_masks_disjoint Scenario.table 1 0 0 0 0 0 0);
    [discriminate | reflexivity | reflexivity].
Defined.

(** Electron and tau requested together. *)
Lemma many_flavors_usage_error_witness :
  create_masked_dict Scenario.table 1 1 0 1 = ([msg_many_flavors], Ok ∅).
Proof.
  apply many_flavors_usage_error; [lia | lia | lia |].
  right. left. split; reflexivity.
Defined.

(** * Properties of the loader *)

Section LoaderProofs.
Context {T : Type} `{NumpyScalar T}.
Implicit Types (w : world T) (names files : list string) (var file : string).
Implicit Types (entry : gmap string (option (ndarray T))).
Implicit Types (dd : gmap string (list (ndarray T))).
Implicit Types (data : gmap string (npz_member T)).
Implicit Types (entries before after : list (gmap string (option (ndarray T)))).
Implicit Types (l : list (ndarray T)).

Lemma foldl_insert_lookup {V} (f : string → V) names (acc : gmap string V) var :
  foldl (fun acc v => <[v := f v]> acc) acc names !! var
  = if decide (var ∈ names) then Some (f var) else acc !! var.
Proof.
  revert acc. induction names as [|x names IH]; intros acc; simpl.
  - done.
  - rewrite IH. destruct (decide (var ∈ names)) as [Hin|Hin].
    + rewrite decide_True; [done | by right].
    + destruct (decide (var = x)) as [->|Hne].
      * rewrite decide_True by left. by rewrite lookup_insert_eq.
      * rewrite decide_False by (rewrite elem_of_cons; tauto).
        by rewrite lookup_insert_ne.
Qed.

Lemma dict_comp_lookup {V} (f : string → V) names var :
  dict_comp f names !! var = if decide (var ∈ names) then Some (f var) else None.
Proof. unfold dict_comp. by rewrite foldl_insert_lookup, lookup_empty. Qed.

Lemma dict_comp_dom {V} (f : string → V) names :
  dom (dict_comp f names) = list_to_set names.
Proof.
  apply set_eq. intros var.
  rewrite elem_of_dom, dict_comp_lookup, elem_of_list_to_set.
  case_decide; split; try done; by intros [? ?].
Qed.

Lemma read_fields_lookup data names acc d :
  read_fields data names acc = inr d →
  ∀ var, d !! var =
    if decide (var ∈ names)
    then Some (match data !! var with Some (Readable a) => Some a | _ => None end)
    else acc !! var.
Proof.
  revert acc. induction names as [|x names IH]; intros acc; simpl.
  - by intros [= <-] var.
  - intros Hd var.
    assert (∀ v,
      read_fields data names (<[x := v]> acc) = inr d →
      v = match data !! x with Some (Readable a) => Some a | _ => None end →
      d !! var = if decide (var ∈ x :: names)
        then Some (match data !! var with Some (Readable a) => Some a | _ => None end)
        else acc !! var) as Hstep.
    { intros v Hv Heq. rewrite (IH _ Hv var).
      destruct (decide (var ∈ names)) as [Hin|Hin].
      - rewrite decide_True; [done | by right].
      - destruct (decide (var = x)) as [->|Hne].
        + rewrite decide_True by left. by rewrite lookup_insert_eq, Heq.
        + rewrite decide_False by (rewrite elem_of_cons; tauto).
          by rewrite lookup_insert_ne. }
    destruct (data !! x) as [[a|err]|] eqn:Hx; [| done |].
    + by apply (Hstep (Some a)).
    + by apply (Hstep None).
Qed.

Lemma read_fields_clean data names acc :
  match read_fields data names acc with
  | inr _ =>
      forallb (fun var => match data !! var with
                          | Some (Unreadable _) => false | _ => true end) names = true
  | inl _ =>
      forallb (fun var => match data !! var with
                          | Some (Unreadable _) => false | _ => true end) names = false
  end.
Proof.
  revert acc. induction names as [|x names IH]; intros acc; simpl; [done|].
  destruct (data !! x) as [[a|err]|]; simpl; try done; apply IH.
Qed.

Lemma try_load_inr w file names d :
  try_load w file names = inr d →
  loads_cleanly w names file = true ∧
  ∀ var, d !! var = if decide (var ∈ names)
                    then Some (member_array w file var) else None.
Proof.
  unfold try_load, loads_cleanly, member_array.
  destruct (np_load w file) as [err|data]; [done|]. intros Hd. split.
  - pose proof (read_fields_clean data names ∅) as Hc. by rewrite Hd in Hc.
  - intros var. rewrite (read_fields_lookup _ _ _ _ Hd var).
    by rewrite lookup_empty.
Qed.

Lemma try_load_inl w file names e :
  try_load w file names = inl e → loads_cleanly w names file = false.
Proof.
  unfold try_load, loads_cleanly.
  destruct (np_load w file) as [err|data]; [done|]. intros Hd.
  pose proof (read_fields_clean data names ∅) as Hc. by rewrite Hd in Hc.
Qed.

Lemma load_variables_lookup w file names var :
  (load_variables w (file, names)).2 !! var =
  if decide (var ∈ names)
  then Some (if loads_cleanly w names file then member_array w file var else None)
  else None.
Proof.
  unfold load_variables. destruct (try_load w file names) as [e|d] eqn:Ht; simpl.
  - rewrite dict_comp_lookup. by rewrite (try_load_inl _ _ _ _ Ht).
  - destruct (try_load_inr _ _ _ _ Ht) as [-> Hd]. by rewrite Hd.
Qed.

(** *** Aggregation *)

Lemma append_entry_dom names dd entry :
  dom (append_entry names dd entry) = dom dd.
Proof.
  unfold append_entry. revert dd.
  induction names as [|x names IH]; intros dd; simpl; [done|].
  rewrite IH. destruct (entry !! x) as [[a|]|]; try done. by rewrite dom_alter_L.
Qed.

Lemma append_entry_absent names dd entry var :
  (var ∉ names ∨ ∀ a, entry !! var ≠ Some (Some a)) →
  append_entry names dd entry !! var = dd !! var.
Proof.
  intros Hvar. unfold append_entry. revert dd.
  induction names as [|x names IH]; intros dd; simpl; [done|].
  rewrite IH.
  - destruct (entry !! x) as [[a|]|] eqn:Hx; try done.
    destruct (decide (x = var)) as [->|Hne].
    + destruct Hvar as [Hnin|Hno]; [|by destruct (Hno a)].
      destruct Hnin. by left.
    + by rewrite lookup_alter_ne.
  - destruct Hvar as [Hnin|Hno]; [left|by right].
    intros Hin. apply Hnin. by right.
Qed.

Lemma append_entry_lookup names dd entry var :
  NoDup names → var ∈ names →
  append_entry names dd entry !! var =
  (fun l => l ++ match entry !! var with Some (Some a) => [a] | _ => [] end)
    <$> dd !! var.
Proof.
  unfold append_entry. intros Hnd. revert dd.
  induction Hnd as [|x names Hx Hnd IH]; intros dd Hin; [by apply elem_of_nil in Hin|].
  simpl. apply elem_of_cons in Hin as [->|Hin].
  - pose proof (append_entry_absent names) as Habs. unfold append_entry in Habs.
    rewrite Habs by (by left).
    destruct (entry !! x) as [[a|]|].
    + by rewrite lookup_alter_eq.
    + destruct (dd !! x); simpl; by rewrite ?app_nil_r.
    + destruct (dd !! x); simpl; by rewrite ?app_nil_r.
  - rewrite IH by done. destruct (decide (x = var)) as [->|Hne]; [done|].
    destruct (entry !! x) as [[a|]|]; try done. by rewrite lookup_alter_ne.
Qed.

Lemma foldl_append_entry_lookup names dd entries var :
  NoDup names → var ∈ names →
  foldl (append_entry names) dd entries !! var =
  (fun l => l ++ omap (fun e => entry_value e var) entries) <$> dd !! var.
Proof.
  intros Hnd Hin. revert dd.
  induction entries as [|e entries IH]; intros dd; simpl.
  - destruct (dd !! var); simpl; by rewrite ?app_nil_r.
  - rewrite IH, append_entry_lookup by done. unfold entry_value.
    destruct (dd !! var) as [l|]; simpl; [|done].
    destruct (e !! var) as [[a|]|]; simpl; by rewrite <- ?app_assoc, ?app_nil_r.
Qed.

Lemma aggregate_dom names entries :
  dom (aggregate names entries) = list_to_set names.
Proof.
  unfold aggregate. generalize (dict_comp_dom (fun _ => @nil (ndarray T)) names).
  generalize (dict_comp (fun _ => @nil (ndarray T)) names).
  induction entries as [|e entries IH]; intros dd Hdd; simpl; [done|].
  apply IH. by rewrite append_entry_dom.
Qed.

Lemma aggregate_lookup names entries var :
  NoDup names → var ∈ names →
  aggregate names entries !! var = Some (omap (fun e => entry_value e var) entries).
Proof.
  intros Hnd Hin. unfold aggregate.
  rewrite foldl_append_entry_lookup, dict_comp_lookup by done.
  by rewrite decide_True.
Qed.


Lemma aggregate_no_contribution names entries var :
  var ∈ names →
  (∀ e a, e ∈ entries → e !! var ≠ Some (Some a)) →
  aggregate names entries !! var = Some [].
Proof.
  intros Hin. unfold aggregate.
  assert (dict_comp (fun _ => @nil (ndarray T)) names !! var = Some []) as Hdd.
  { rewrite dict_comp_lookup. by rewrite decide_True. }
  revert Hdd. generalize (dict_comp (fun _ => @nil (ndarray T)) names).
  induction entries as [|e entries IH]; intros dd Hdd Hno; simpl; [done|].
  apply IH.
  - rewrite append_entry_absent; [done|]. right. intros a. apply Hno. by left.
  - intros e' a He'. apply Hno. by right.
Qed.

(** *** The batch *)

Lemma pool_ok w (num_workers : Z) :
  1 ≤ num_workers → Pool (Z.min num_workers (cpu_count_or_1 w)) = Ok tt.
Proof.
  intros Hn. unfold Pool, cpu_count_or_1.
  destruct (cpu_count w) as [n|]; by rewrite (proj2 (Z.ltb_ge _ _)) by lia.
Qed.

Lemma load_file_list_inv w names (num_workers : Z) files printed table :
  load_file_list w names num_workers files = Ok (printed, table) →
  table = convert_value <$> aggregate names (data_list w names files) ∧
  ∀ line file, file ∈ files → line ∈ (load_variables w (file, names)).1 →
               line ∈ printed.
Proof.
  unfold load_file_list.
  destruct (Pool _) as [[]|e]; simpl; [|done].
  rewrite <- !list_fmap_compose. intros [= <- <-]. split; [done|].
  intros line file Hfile Hline. apply elem_of_app. left.
  apply list_elem_of_In, in_concat. exists (load_variables w (file, names)).1.
  split; [|by apply list_elem_of_In].
  apply list_elem_of_In, list_elem_of_fmap. by exists file.
Qed.

Lemma load_file_list_ok w names (num_workers : Z) files :
  1 ≤ num_workers →
  ∃ printed, load_file_list w names num_workers files
             = Ok (printed, convert_value <$> aggregate names (data_list w names files)).
Proof.
  intros Hn. unfold load_file_list. rewrite pool_ok by done. simpl.
  rewrite <- !list_fmap_compose. by eexists.
Qed.

Lemma table_lookup w names files var :
  var ∈ names →
  (convert_value <$> aggregate names (data_list w names files)) !! var
  = Some (convert_value (contributed w names files var)).
Proof.
  intros Hin. rewrite lookup_fmap. unfold contributed.
  assert (is_Some (aggregate names (data_list w names files) !! var)) as [l ->].
  { apply elem_of_dom. rewrite aggregate_dom. by apply elem_of_list_to_set. }
  done.
Qed.

(** *** Shapes *)

Lemma one_shape_size l (s : list nat) :
  l ≠ [] → (∀ a, a ∈ l → arr_shape a = s) →
  size (list_to_set (arr_shape <$> l) : gset (list nat)) = 1%nat.
Proof.
  intros Hne Hall.
  assert ((list_to_set (arr_shape <$> l) : gset (list nat)) = {[ s ]}) as ->.
  { apply set_eq. intros s'. rewrite elem_of_list_to_set, list_elem_of_fmap,
      elem_of_singleton. split.
    - intros (a & -> & Ha). by apply Hall.
    - intros ->. destruct l as [|a l]; [done|]. exists a. split.
      + symmetry. apply Hall. by left.
      + by left. }
  apply size_singleton.
Qed.

Lemma two_shapes_size l a b :
  a ∈ l → b ∈ l → arr_shape a ≠ arr_shape b →
  size (list_to_set (arr_shape <$> l) : gset (list nat)) ≠ 1%nat.
Proof.
  intros Ha Hb Hne Hsize. apply size_1_elem_of in Hsize as [s Hs].
  apply leibniz_equiv in Hs.
  assert (∀ c, c ∈ l → arr_shape c = s) as Hall.
  { intros c Hc.
    assert (arr_shape c ∈ (list_to_set (arr_shape <$> l) : gset (list nat))) as Hin.
    { apply elem_of_list_to_set, list_elem_of_fmap. by exists c. }
    rewrite Hs in Hin. by apply elem_of_singleton in Hin. }
  apply Hne. by rewrite (Hall a), (Hall b).
Qed.

Lemma convert_value_one_shape l s :
  l ≠ [] → (∀ a, a ∈ l → arr_shape a = s) →
  convert_value l =
  NumericArray
    (mk_ndarray np_float32 (length l :: s)
       (concat ((fun a => astype_float32 (arr_dtype a) <$> arr_data a) <$> l))).
Proof.
  intros Hne Hall. unfold convert_value, np_convert.
  rewrite decide_True by (by apply (one_shape_size l s)).
  unfold np_array_float32. destruct l as [|a l]; [done|].
  by rewrite (Hall a) by left.
Qed.

Lemma np_array_object_holds l c :
  np_array_object l = Ok c → ∃ sh, c = ObjectArray (length l :: sh) l.
Proof.
  unfold np_array_object. destruct l as [|a l]; [intros [= <-]; by exists []|].
  destruct (discovered_dims _) as [|d p].
  - intros [= <-]. by exists [].
  - case_match; [|done]. intros [= <-]. by eexists.
Qed.

Lemma convert_value_two_shapes l a b :
  a ∈ l → b ∈ l → arr_shape a ≠ arr_shape b →
  (∃ sh, convert_value l = ObjectArray (length l :: sh) l) ∨ convert_value l = PyList l.
Proof.
  intros Ha Hb Hne. unfold convert_value, np_convert.
  rewrite decide_False by (by apply (two_shapes_size l a b)).
  destruct (np_array_object l) as [c|e] eqn:Hc; [left|by right].
  by apply np_array_object_holds.
Qed.

Lemma convert_value_len l : column_len (convert_value l) = length l.
Proof.
  unfold convert_value, np_convert. case_decide; [done|].
  destruct (np_array_object l) as [c|e] eqn:Hc; [|done].
  by apply np_array_object_holds in Hc as [sh ->].
Qed.

End LoaderProofs.

(** * The claims about the loader *)

Section LoaderClaims.
Context {T : Type} `{NumpyScalar T}.
Implicit Types (w : world T) (names files listing before after : list string).
Implicit Types (var file folder_path : string) (num_workers : Z).
Implicit Types (num_files : option Z) (file_selected : option (list string)).

Lemma load_variables_from_npz_listed w folder_path names num_workers num_files
    file_selected listing :
  listdir w folder_path = Ok listing →
  load_variables_from_npz w folder_path names num_workers num_files file_selected
  = load_file_list w names num_workers
      (select_files folder_path listing num_files file_selected).
Proof. intros Hl. unfold load_variables_from_npz. by rewrite Hl. Qed.



Lemma empty_column w names files var :
  var ∈ names →
  (∀ file, file ∈ files → (load_variables w (file, names)).2 !! var = Some None) →
  (convert_value <$> aggregate names (data_list w names files)) !! var
  = Some (ObjectArray [0%nat] []).
Proof.
  intros Hin Hnone. rewrite lookup_fmap.
  rewrite aggregate_no_contribution; [done | done |].
  intros entry a Hentry. unfold data_list in Hentry.
  apply list_elem_of_fmap in Hentry as (file & -> & Hfile).
  by rewrite (Hnone file Hfile).
Qed.

(** C2.  When the directory can be listed and a worker can be started, the
    call returns a table whose keys are exactly the requested names, and a
    name for which every per-file result is [None] maps to the empty array
    (an object array of shape [(0,)]). *)
Theorem table_keys_are_requested_fields w folder_path names num_workers
    num_files file_selected listing :
  listdir w folder_path = Ok listing →
  1 ≤ num_workers →
  ∃ printed table,
    load_variables_from_npz w folder_path names num_workers num_files file_selected
    = Ok (printed, table) ∧
    dom table = list_to_set names ∧
    ∀ var, var ∈ names →
      (∀ file, file ∈ select_files folder_path listing num_files file_selected →
               (load_variables w (file, names)).2 !! var = Some None) →
      table !! var = Some (ObjectArray [0%nat] []).
Proof.
  intros Hdir Hn.
  rewrite (load_variables_from_npz_listed _ _ _ _ _ _ _ Hdir).
  set (files := select_files folder_path listing num_files file_selected).
  destruct (load_file_list_ok w names num_workers files Hn) as [printed Hrun].
  eexists _, _. split; [exact Hrun|]. split.
  - by rewrite dom_fmap_L, aggregate_dom.
  - intros var Hin Hnone. by apply empty_column.
Qed.

Lemma omap_filter {A B} (c : A → bool) (f : A → option B) (xs : list A) :
  omap (fun x => if c x then f x else None) xs
  = omap f (filter (fun x => c x = true) xs).
Proof.
  induction xs as [|x xs IH]; [done|]. csimpl.
  rewrite filter_cons. destruct (c x) eqn:Hc.
  - rewrite decide_True by done. csimpl. by rewrite IH.
  - by rewrite decide_False by done.
Qed.

Lemma length_omap_filter {A B} (f : A → option B) (xs : list A) :
  length (omap f xs) = length (filter (fun x => is_Some (f x)) xs).
Proof.
  induction xs as [|x xs IH]; [done|]. csimpl. rewrite filter_cons.
  destruct (f x) as [y|].
  - rewrite decide_True by eauto. simpl. by rewrite IH.
  - by rewrite decide_False by (by intros [? ?]).
Qed.

Lemma omap_fmap {A B C} (h : A → B) (g : B → option C) (xs : list A) :
  omap g (h <$> xs) = omap (fun x => g (h x)) xs.
Proof.
  induction xs as [|x xs IH]; [done|]. csimpl. by rewrite IH.
Qed.

Lemma omap_pointwise {A B} (f g : A → option B) (xs : list A) :
  (∀ x, f x = g x) → omap f xs = omap g xs.
Proof.
  intros Hfg. induction xs as [|x xs IH]; [done|]. csimpl. by rewrite Hfg, IH.
Qed.

Lemma contributed_arrays w names files var :
  NoDup names → var ∈ names →
  contributed w names files var
  = omap (fun file => member_array w file var)
         (filter (fun file => loads_cleanly w names file = true) files).
Proof.
  intros Hnd Hin. unfold contributed. rewrite aggregate_lookup by done. simpl.
  rewrite <- omap_filter. unfold data_list.
  rewrite omap_fmap. apply omap_pointwise. intros file.
  unfold entry_value. rewrite load_variables_lookup, decide_True by done.
  by destruct (loads_cleanly w names file), (member_array w file var).
Qed.


(** C6, amended.  For a file whose task runs without an exception (the
    archive opens and every requested member that is there can be read), the
    per-file result maps every requested field to the member's array, or to
    [None] when the archive lacks it.  For requested names without
    duplicates, the arrays gathered for a field are, in file order and
    unchanged, the member arrays of the files that load without exception
    and have the field; the length of the field's column is the number of
    those files. *)
Theorem missing_field_skips_one_column w folder_path names num_workers
    num_files file_selected listing files :
  NoDup names →
  listdir w folder_path = Ok listing →
  1 ≤ num_workers →
  files = select_files folder_path listing num_files file_selected →
  (∀ file var, loads_cleanly w names file = true → var ∈ names →
     (load_variables w (file, names)).2 !! var = Some (member_array w file var)) ∧
  (∀ var, var ∈ names →
     contributed w names files var
     = omap (fun file => member_array w file var)
            (filter (fun file => loads_cleanly w names file = true) files)) ∧
  ∃ printed table,
    load_variables_from_npz w folder_path names num_workers num_files file_selected
    = Ok (printed, table) ∧
    ∀ var, var ∈ names →
      ∃ c, table !! var = Some c ∧
           column_len c
           = length (filter (fun file => is_Some (member_array w file var))
                       (filter (fun file => loads_cleanly w names file = true) files)).
Proof.
  intros Hnd Hdir Hn ->. split; [|split].
  - intros file var Hclean Hin.
    by rewrite load_variables_lookup, decide_True, Hclean by done.
  - intros var Hin. by apply contributed_arrays.
  - rewrite (load_variables_from_npz_listed _ _ _ _ _ _ _ Hdir).
    set (files := select_files folder_path listing num_files file_selected).
    destruct (load_file_list_ok w names num_workers files Hn) as [printed Hrun].
    eexists _, _. split; [exact Hrun|]. intros var Hin.
    rewrite table_lookup by done. eexists. split; [done|].
    by rewrite convert_value_len, contributed_arrays, length_omap_filter.
Qed.

(** C8.  With [num_files = k], [k] not negative, and no explicit list, the
    batch runs on the first [k] discovered files in discovery order, at most
    [k] of them.  With an explicit list the batch runs on exactly that list,
    whatever [num_files] is. *)
Theorem file_limit_and_explicit_list w folder_path names num_workers listing
    (k : Z) num_files (explicit : list string) :
  listdir w folder_path = Ok listing →
  0 ≤ k →
  (load_variables_from_npz w folder_path names num_workers (Some k) None
   = load_file_list w names num_workers
       (take (Z.to_nat k) (discover folder_path listing)) ∧
   Z.of_nat (length (take (Z.to_nat k) (discover folder_path listing))) ≤ k) ∧
  load_variables_from_npz w folder_path names num_workers num_files (Some explicit)
  = load_file_list w names num_workers explicit.
Proof.
  intros Hdir Hk. rewrite !(load_variables_from_npz_listed _ _ _ _ _ _ _ Hdir).
  unfold select_files, slice_to.
  rewrite (proj2 (Z.leb_le 0 k)) by done. split; [split|]; try done.
  rewrite length_take. lia.
Qed.

(** C9, amended.  With a positive worker count the call raises exactly when
    listing the directory raises, and with that exception; per-file failures
    never make it raise.  When no file of the list loads (explicit list or
    not, empty or not) it returns a table in which every requested field is
    the empty array. *)
Theorem raises_only_when_listing_fails w folder_path names num_workers
    num_files file_selected :
  1 ≤ num_workers →
  (∀ e, load_variables_from_npz w folder_path names num_workers num_files file_selected
        = Raise e ↔ listdir w folder_path = Raise e) ∧
  (∀ listing,
     listdir w folder_path = Ok listing →
     (∀ file, file ∈ select_files folder_path listing num_files file_selected →
              loads_cleanly w names file = false) →
     ∃ printed table,
       load_variables_from_npz w folder_path names num_workers num_files file_selected
       = Ok (printed, table) ∧
       ∀ var, var ∈ names → table !! var = Some (ObjectArray [0%nat] [])).
Proof.
  intros Hn. split.
  - intros e. destruct (listdir w folder_path) as [listing|e'] eqn:Hdir.
    + rewrite (load_variables_from_npz_listed _ _ _ _ _ _ _ Hdir).
      destruct (load_file_list_ok w names num_workers
                  (select_files folder_path listing num_files file_selected) Hn)
        as [printed ->].
      split; intros; done.
    + unfold load_variables_from_npz. rewrite Hdir. simpl.
      split; intros [= ->]; done.
  - intros listing Hdir Hbad.
    rewrite (load_variables_from_npz_listed _ _ _ _ _ _ _ Hdir).
    set (files := select_files folder_path listing num_files file_selected) in *.
    destruct (load_file_list_ok w names num_workers files Hn) as [printed Hrun].
    eexists _, _. split; [exact Hrun|]. intros var Hin.
    apply empty_column; [done|]. intros file Hfile.
    by rewrite load_variables_lookup, decide_True, (Hbad file Hfile) by done.
Qed.

(** C10.  If the arrays gathered for a requested field are not empty and
    share one shape [s], the field's value is the numeric array with dtype
    float32 and shape [len(l) :: s] that holds, in file order, every element
    of every gathered array cast to float32 from the dtype of its array,
    whatever those dtypes are. *)
Theorem stacked_column_is_float32 w folder_path names num_workers num_files
    file_selected listing printed table var (l : list (ndarray T)) (s : list nat) :
  listdir w folder_path = Ok listing →
  load_variables_from_npz w folder_path names num_workers num_files file_selected
  = Ok (printed, table) →
  var ∈ names →
  l = contributed w names
        (select_files folder_path listing num_files file_selected) var →
  l ≠ [] →
  (∀ a, a ∈ l → arr_shape a = s) →
  table !! var
  = Some (NumericArray
            (mk_ndarray np_float32 (length l :: s)
               (concat ((fun a => astype_float32 (arr_dtype a) <$> arr_data a) <$> l)))).
Proof.
  intros Hdir Hrun Hin -> Hne Hall.
  rewrite (load_variables_from_npz_listed _ _ _ _ _ _ _ Hdir) in Hrun.
  apply load_file_list_inv in Hrun as [-> _]. rewrite table_lookup by done.
  by rewrite (convert_value_one_shape _ s).
Qed.

End LoaderClaims.

(** * The claims on the data set of [Scenario] *)


(** No archive has a member [track_id]. *)
Lemma table_keys_are_requested_fields_witness :
  listdir Scenario.w "data" = Ok ["a.npz"; "b.npz"; "c.npz"; "notes.txt"] ∧
  ∃ printed table,
    load_variables_from_npz Scenario.w "data" ["is_cc"; "track_id"] 28 None None
    = Ok (printed, table) ∧
    dom table = {[ "is_cc"; "track_id" ]} ∧
    table !! "track_id" = Some (ObjectArray [0%nat] []).
Proof.
  split; [reflexivity|].
  destruct (table_keys_are_requested_fields Scenario.w "data"
              ["is_cc"; "track_id"] 28 None None
              ["a.npz"; "b.npz"; "c.npz"; "notes.txt"] eq_refl ltac:(lia))
    as (printed & table & Hrun & Hdom & Hempty).
  exists printed, table. split; [exact Hrun|]. split.
  - rewrite Hdom. simpl. by rewrite union_empty_r_L.
  - apply Hempty; [right; left|]. intros file Hfile.
    change (file ∈ ["data/a.npz"; "data/b.npz"; "data/c.npz"]) in Hfile.
    repeat (apply elem_of_cons in Hfile as [->|Hfile]; [reflexivity|]).
    by apply elem_of_nil in Hfile.
Defined.

Lemma fields_NoDup : NoDup Scenario.fields.
Proof. apply (bool_decide_unpack _). by vm_compute. Qed.

(** [extra/d.npz] opens, lacks [hits] and has a readable [is_cc]; reading its
    member [labels] raises, and the task returns [None] for [is_cc] too. *)
Lemma opened_file_with_unreadable_member :
  np_load Scenario.w "extra/d.npz" = NpzFile Scenario.file_D ∧
  Scenario.file_D !! "hits" = None ∧
  Scenario.file_D !! "is_cc" = Some (Readable (Scenario.scalar np_bool 1)) ∧
  (load_variables Scenario.w ("extra/d.npz", ["is_cc"; "hits"; "labels"])).2
    !! "is_cc" = Some None ∧
  contributed Scenario.w ["is_cc"; "hits"; "labels"] ["extra/d.npz"] "is_cc" = [].
Proof. repeat split; reflexivity. Qed.

(** [data/b.npz] lacks [in_neutrino_pdg] and still gives its [event_id]; the
    column [in_neutrino_pdg] has the one row of [data/a.npz]. *)
Lemma missing_field_skips_one_column_witness :
  NoDup Scenario.fields ∧
  listdir Scenario.w "data" = Ok ["a.npz"; "b.npz"; "c.npz"; "notes.txt"] ∧
  (load_variables Scenario.w ("data/b.npz", Scenario.fields)).2 !! "in_neutrino_pdg"
  = Some None ∧
  (load_variables Scenario.w ("data/b.npz", Scenario.fields)).2 !! "event_id"
  = Some (Some (Scenario.scalar np_int64 42)) ∧
  contributed Scenario.w Scenario.fields
    ["data/a.npz"; "data/b.npz"; "data/c.npz"] "in_neutrino_pdg"
  = [Scenario.scalar np_int32 14] ∧
  ∃ printed table,
    load_variables_from_npz Scenario.w "data" Scenario.fields 28 None None
    = Ok (printed, table) ∧
    ∃ c, table !! "in_neutrino_pdg" = Some c ∧ column_len c = 1%nat.
Proof.
  destruct (missing_field_skips_one_column Scenario.w "data" Scenario.fields 28
              None None ["a.npz"; "b.npz"; "c.npz"; "notes.txt"]
              ["data/a.npz"; "data/b.npz"; "data/c.npz"]
              fields_NoDup eq_refl ltac:(lia) eq_refl)
    as (Hfile & Hcol & printed & table & Hrun & Hlen).
  assert ("in_neutrino_pdg" ∈ Scenario.fields) as Hpdg
    by (apply (bool_decide_unpack _); by vm_compute).
  assert ("event_id" ∈ Scenario.fields) as Hev
    by (apply (bool_decide_unpack _); by vm_compute).
  split; [exact fields_NoDup|]. split; [reflexivity|].
  split; [exact (Hfile "data/b.npz" _ eq_refl Hpdg)|].
  split; [exact (Hfile "data/b.npz" _ eq_refl Hev)|].
  split; [exact (Hcol _ Hpdg)|].
  exists printed, table. split; [exact Hrun|]. exact (Hlen _ Hpdg).
Defined.

(** A cap of two files, without and with an explicit list. *)
Lemma file_limit_and_explicit_list_witness :
  listdir Scenario.w "data" = Ok ["a.npz"; "b.npz"; "c.npz"; "notes.txt"] ∧
  load_variables_from_npz Scenario.w "data" Scenario.fields 28 (Some 2) None
  = load_file_list Scenario.w Scenario.fields 28 ["data/a.npz"; "data/b.npz"] ∧
  load_variables_from_npz Scenario.w "data" Scenario.fields 28 (Some 2)
    (Some ["extra/d.npz"; "data/a.npz"; "data/b.npz"])
  = load_file_list Scenario.w Scenario.fields 28
      ["extra/d.npz"; "data/a.npz"; "data/b.npz"].
Proof.
  destruct (file_limit_and_explicit_list Scenario.w "data" Scenario.fields 28
              ["a.npz"; "b.npz"; "c.npz"; "notes.txt"] 2 (Some 2)
              ["extra/d.npz"; "data/a.npz"; "data/b.npz"] eq_refl ltac:(lia))
    as [[Hlimit _] Hexplicit].
  split; [reflexivity|]. split; [exact Hlimit | exact Hexplicit].
Defined.

(** An explicit list whose only file is not an archive, and an empty explicit
    list: both calls return. *)
Lemma explicit_list_without_valid_file_returns :
  listdir Scenario.w "data" = Ok ["a.npz"; "b.npz"; "c.npz"; "notes.txt"] ∧
  loads_cleanly Scenario.w Scenario.fields "data/c.npz" = false ∧
  (∃ out,
     load_variables_from_npz Scenario.w "data" Scenario.fields 28 None
       (Some ["data/c.npz"]) = Ok out) ∧
  (∃ out,
     load_variables_from_npz Scenario.w "data" Scenario.fields 28 None (Some [])
     = Ok out).
Proof.
  split; [reflexivity|]. split; [reflexivity|].
  split; eexists; reflexivity.
Qed.

(** A directory that does not exist, and an explicit list without a valid
    file. *)
Lemma raises_only_when_listing_fails_witness :
  1 ≤ 28 ∧
  load_variables_from_npz Scenario.w "nowhere" Scenario.fields 28 None None
  = Raise (OSError "[Errno 2] No such file or directory") ∧
  ∃ printed table,
    load_variables_from_npz Scenario.w "data" Scenario.fields 28 None
      (Some ["data/c.npz"]) = Ok (printed, table) ∧
    table !! "is_cc" = Some (ObjectArray [0%nat] []).
Proof.
  split; [lia|]. split.
  - apply (proj1 (raises_only_when_listing_fails Scenario.w "nowhere"
                    Scenario.fields 28 None None ltac:(lia))).
    reflexivity.
  - destruct (proj2 (raises_only_when_listing_fails Scenario.w "data"
                       Scenario.fields 28 None (Some ["data/c.npz"]) ltac:(lia))
                ["a.npz"; "b.npz"; "c.npz"; "notes.txt"] eq_refl)
      as (printed & table & Hrun & Hempty).
    + intros file Hfile.
      change (file ∈ ["data/c.npz"]) in Hfile.
      apply elem_of_cons in Hfile as [->|Hfile]; [reflexivity|].
      by apply elem_of_nil in Hfile.
    + exists printed, table. split; [exact Hrun|]. apply Hempty.
      apply (bool_decide_unpack _). by vm_compute.
Defined.

(** [run_number] and [event_id] are int64 scalars in both archives; as float32,
    16777217 becomes 16777216. *)
Lemma stacked_column_is_float32_witness :
  ∃ printed table,
    load_variables_from_npz Scenario.w "data" Scenario.fields 28 None None
    = Ok (printed, table) ∧
    contributed Scenario.w Scenario.fields
      ["data/a.npz"; "data/b.npz"; "data/c.npz"] "event_id"
    = [Scenario.scalar np_int64 16777217; Scenario.scalar np_int64 42] ∧
    table !! "event_id"
    = Some (NumericArray (mk_ndarray np_float32 [2%nat] [16777216; 42])).
Proof.
  destruct (load_file_list_ok Scenario.w Scenario.fields 28
              ["data/a.npz"; "data/b.npz"; "data/c.npz"] ltac:(lia))
    as [printed Hrun].
  eexists printed, _. split; [exact Hrun|]. split; [reflexivity|].
  refine (stacked_column_is_float32 Scenario.w "data" Scenario.fields 28 None None
            ["a.npz"; "b.npz"; "c.npz"; "notes.txt"] printed _ "event_id" _ []
            eq_refl Hrun _ eq_refl _ _).
  - apply (bool_decide_unpack _). by vm_compute.
  - discriminate.
  - intros a Ha.
    change (a ∈ [Scenario.scalar np_int64 16777217; Scenario.scalar np_int64 42])
      in Ha.
    repeat (apply elem_of_cons in Ha as [->|Ha]; [reflexivity|]).
    by apply elem_of_nil in Ha.
Defined.

(** * Further properties of the category filter *)

Section FilterMore.
Context {T : Type} `{NumpyScalar T}.
Implicit Types (cc pdg rn ev : list T) (data_filter : gmap string (list T)).
Implicit Types (mask : list bool).

Lemma category_mask_aligned data_filter cc pdg (is_cc is_nu_e is_nu_mu is_nu_tau : Z) :
  data_filter !! "is_cc" = Some cc →
  data_filter !! "in_neutrino_pdg" = Some pdg →
  length cc = length pdg →
  ∃ mask, category_mask data_filter is_cc is_nu_e is_nu_mu is_nu_tau = Ok mask ∧
          length mask = length cc.
Proof.
  intros Hcc Hpdg Hlen. unfold category_mask.
  assert (∀ c, ∃ mask, flavor_mask data_filter c = Ok mask ∧ length mask = length cc)
    as Hfl.
  { intros c. eexists. split; [by apply flavor_mask_aligned|].
    rewrite length_zip_with. lia. }
  assert (∀ k, ∃ mask, (cc0 ←! getitem data_filter "is_cc"; Ok (np_eq cc0 k)) = Ok mask ∧
                       length mask = length cc) as Hplain.
  { intros k. unfold getitem. rewrite Hcc. simpl. eexists. split; [done|].
    apply np_eq_length. }
  repeat case_match; auto.
Qed.

Lemma select_rows_zip {A B} (a : list A) (b : list B) mask :
  length a = length b →
  zip (select_rows a mask) (select_rows b mask) = select_rows (zip a b) mask.
Proof.
  unfold select_rows. revert b mask.
  induction a as [|x a IH]; intros [|y b] mask Hlen; try done.
  destruct mask as [|m mask]; [done|]. simpl in Hlen.
  cbn [zip zip_with]. rewrite !filter_cons. cbn [snd].
  injection Hlen as Hlen. specialize (IH b mask Hlen).
  destruct m.
  - rewrite !decide_True by done. cbn. f_equal. apply IH.
  - rewrite !decide_False by done. apply IH.
Qed.

Lemma select_rows_sublist {A} (a : list A) mask : select_rows a mask `sublist_of` a.
Proof.
  unfold select_rows. revert mask.
  induction a as [|x a IH]; intros [|m mask]; cbn [zip zip_with];
    try (by apply sublist_nil_l).
  rewrite filter_cons. cbn [snd]. destruct m.
  - rewrite decide_True by done. cbn. apply sublist_skip, IH.
  - rewrite decide_False by done. apply sublist_cons, IH.
Qed.

(** X1.  On a table whose four columns have the same number of rows, and for
    flags that pass the guard of line 90, [create_masked_dict] returns the
    rows of [run_number] and of [event_id] at which the mask is true: the two
    results pair up as the selected (run, event) rows of the table, in table
    order, none repeated and none invented. *)
Theorem create_masked_dict_rows data_filter cc pdg rn ev
    (is_cc is_nu_e is_nu_mu is_nu_tau : Z) :
  data_filter !! "is_cc" = Some cc →
  data_filter !! "in_neutrino_pdg" = Some pdg →
  data_filter !! "run_number" = Some rn →
  data_filter !! "event_id" = Some ev →
  length pdg = length cc → length rn = length cc → length ev = length cc →
  is_nu_e + is_nu_mu + is_nu_tau ≤ 1 →
  ∃ mask,
    category_mask data_filter is_cc is_nu_e is_nu_mu is_nu_tau = Ok mask ∧
    (create_masked_dict data_filter is_cc is_nu_e is_nu_mu is_nu_tau).2
    = Ok (<["event_id" := select_rows ev mask]>
            (<["run_number" := select_rows rn mask]> ∅)) ∧
    zip (select_rows rn mask) (select_rows ev mask) = select_rows (zip rn ev) mask ∧
    select_rows (zip rn ev) mask `sublist_of` zip rn ev.
Proof.
  intros Hcc Hpdg Hrn Hev Lpdg Lrn Lev Hsum.
  destruct (category_mask_aligned data_filter cc pdg is_cc is_nu_e is_nu_mu
              is_nu_tau Hcc Hpdg (eq_sym Lpdg)) as (mask & Hmask & Lmask).
  exists mask. split; [done|]. split; [|split].
  - unfold create_masked_dict.
    destruct (Z.gtb_spec (is_nu_e + is_nu_mu + is_nu_tau) 1) as [Hgt|_]; [lia|].
    cbn [snd]. rewrite Hmask. cbn [bind_result]. unfold getitem, bool_index.
    rewrite Hrn, Hev. cbn [bind_result].
    rewrite !decide_True by lia. done.
  - apply select_rows_zip. lia.
  - apply select_rows_sublist.
Qed.


Lemma guard_passes data_filter (is_cc is_nu_e is_nu_mu is_nu_tau : Z) :
  is_nu_e + is_nu_mu + is_nu_tau ≤ 1 →
  (create_masked_dict data_filter is_cc is_nu_e is_nu_mu is_nu_tau).2
  = (mask ←! category_mask data_filter is_cc is_nu_e is_nu_mu is_nu_tau;
     run_number ←! getitem data_filter "run_number";
     run_number ←! bool_index run_number mask;
     event_id ←! getitem data_filter "event_id";
     event_id ←! bool_index event_id mask;
     Ok (<["event_id" := event_id]> (<["run_number" := run_number]> ∅))).
Proof.
  intros Hsum. unfold create_masked_dict.
  by destruct (Z.gtb_spec (is_nu_e + is_nu_mu + is_nu_tau) 1) as [Hgt|_]; [lia|].
Qed.

Lemma masked_rows data_filter rn ev (mask : list bool) (printed : list string) :
  data_filter !! "run_number" = Some rn →
  data_filter !! "event_id" = Some ev →
  length rn = length mask → length ev = length mask →
  (printed,
   run_number ←! getitem data_filter "run_number";
   run_number ←! bool_index run_number mask;
   event_id ←! getitem data_filter "event_id";
   event_id ←! bool_index event_id mask;
   Ok (<["event_id" := event_id]>
         (<["run_number" := run_number]> (∅ : gmap string (list T)))))
  = (printed,
     Ok (<["event_id" := select_rows ev mask]>
           (<["run_number" := select_rows rn mask]> ∅))).
Proof.
  intros Hrn Hev Lrn Lev. unfold getitem, bool_index. rewrite Hrn, Hev.
  cbn [bind_result]. by rewrite !decide_True by done.
Qed.

(** C3, amended.  On a table whose columns [is_cc], [in_neutrino_pdg],
    [run_number] and [event_id] have the same number of rows,
    [create_masked_dict] returns the rows of [run_number] and [event_id] at
    which its mask is true, and that mask is, row by row:
    for one requested flavor with [is_cc = 1], true exactly where [is_cc]
    equals 1 and [in_neutrino_pdg] equals the flavor's PDG code in either sign
    (12, 14, 16 for e, mu, tau), nothing being printed;
    for [is_cc = 1] with no flavor flag, true exactly where [is_cc] equals 1,
    after the warning of line 87;
    for any [is_cc] other than 1 and flavor flags whose sum is at most 1, true
    exactly where [is_cc] equals 0, nothing being printed. *)
Theorem create_masked_dict_selects data_filter cc pdg rn ev :
  data_filter !! "is_cc" = Some cc →
  data_filter !! "in_neutrino_pdg" = Some pdg →
  data_filter !! "run_number" = Some rn →
  data_filter !! "event_id" = Some ev →
  length pdg = length cc → length rn = length cc → length ev = length cc →
  (∀ fl : flavor,
     create_masked_dict data_filter 1 (flavor_flags fl).1.1 (flavor_flags fl).1.2
       (flavor_flags fl).2
     = ([],
        Ok (<["event_id" :=
                select_rows ev
                  (zip_with (fun x y => eq_int x 1 &&
                               (eq_int y (pdg_code fl) || eq_int y (- pdg_code fl)))
                            cc pdg)]>
              (<["run_number" :=
                   select_rows rn
                     (zip_with (fun x y => eq_int x 1 &&
                                  (eq_int y (pdg_code fl) || eq_int y (- pdg_code fl)))
                               cc pdg)]> ∅)))) ∧
  create_masked_dict data_filter 1 0 0 0
  = ([msg_no_flavor],
     Ok (<["event_id" := select_rows ev ((fun x => eq_int x 1) <$> cc)]>
           (<["run_number" := select_rows rn ((fun x => eq_int x 1) <$> cc)]> ∅))) ∧
  (∀ is_cc is_nu_e is_nu_mu is_nu_tau : Z,
     is_cc ≠ 1 →
     is_nu_e + is_nu_mu + is_nu_tau ≤ 1 →
     create_masked_dict data_filter is_cc is_nu_e is_nu_mu is_nu_tau
     = ([],
        Ok (<["event_id" := select_rows ev ((fun x => eq_int x 0) <$> cc)]>
              (<["run_number" := select_rows rn ((fun x => eq_int x 0) <$> cc)]> ∅)))).
Proof.
  intros Hcc Hpdg Hrn Hev Lpdg Lrn Lev. split; [|split].
  - intros fl.
    assert (create_masked_dict data_filter 1 (flavor_flags fl).1.1
              (flavor_flags fl).1.2 (flavor_flags fl).2
            = ([],
               mask ←! flavor_mask data_filter (pdg_code fl);
               run_number ←! getitem data_filter "run_number";
               run_number ←! bool_index run_number mask;
               event_id ←! getitem data_filter "event_id";
               event_id ←! bool_index event_id mask;
               Ok (<["event_id" := event_id]> (<["run_number" := run_number]> ∅))))
      as -> by (by destruct fl).
    rewrite (flavor_mask_aligned _ cc pdg (pdg_code fl) Hcc Hpdg (eq_sym Lpdg)).
    cbn [bind_result].
    apply masked_rows; try done; rewrite length_zip_with; lia.
  - unfold create_masked_dict, category_mask, getitem. cbn. rewrite Hcc.
    cbn [bind_result].
    apply (masked_rows data_filter rn ev (np_eq cc 1)); try done;
      by rewrite np_eq_length.
  - intros is_cc e m t Hne Hsum. unfold create_masked_dict, category_mask.
    destruct (Z.gtb_spec (e + m + t) 1) as [Hgt|_]; [lia|].
    destruct (Z.eqb_spec is_cc 1) as [|_]; [done|]. cbn [andb].
    unfold getitem at 1. rewrite Hcc. cbn [bind_result].
    apply (masked_rows data_filter rn ev (np_eq cc 0)); try done;
      by rewrite np_eq_length.
Qed.

(** X2.  For flags that pass the guard of line 90: without a column [is_cc]
    the call raises [KeyError] for ['is_cc']; with [is_cc] but without
    [in_neutrino_pdg], a charged-current request with a flavor flag raises
    [KeyError] for ['in_neutrino_pdg']. *)
Theorem missing_column_raises_KeyError data_filter
    (is_cc is_nu_e is_nu_mu is_nu_tau : Z) :
  is_nu_e + is_nu_mu + is_nu_tau ≤ 1 →
  (data_filter !! "is_cc" = None →
   (create_masked_dict data_filter is_cc is_nu_e is_nu_mu is_nu_tau).2
   = Raise (KeyError "is_cc")) ∧
  (is_Some (data_filter !! "is_cc") →
   data_filter !! "in_neutrino_pdg" = None →
   is_cc = 1 → ¬ (is_nu_e = 0 ∧ is_nu_mu = 0 ∧ is_nu_tau = 0) →
   (create_masked_dict data_filter is_cc is_nu_e is_nu_mu is_nu_tau).2
   = Raise (KeyError "in_neutrino_pdg")).
Proof.
  intros Hsum. rewrite guard_passes by done. split.
  - intros Hcc. unfold category_mask, flavor_mask, getitem. rewrite Hcc.
    by repeat case_match.
  - intros [cc Hcc] Hpdg -> Hsome.
    unfold category_mask, flavor_mask, getitem. rewrite Hcc, Hpdg. simpl.
    destruct (Z.eqb_spec is_nu_e 0); simpl; [|done].
    destruct (Z.eqb_spec is_nu_mu 0); simpl; [|done].
    destruct (Z.eqb_spec is_nu_tau 0); simpl; [|done].
    destruct Hsome. done.
Qed.

(** X3.  A neutral-current request, and a charged-current request without a
    flavor flag, never read the column [in_neutrino_pdg]: replacing or
    removing that column changes neither what is printed nor what is
    returned. *)
Theorem selection_without_flavor_ignores_pdg data_filter (pdg' : option (list T))
    (is_cc is_nu_e is_nu_mu is_nu_tau : Z) :
  is_cc ≠ 1 ∨ (is_nu_e = 0 ∧ is_nu_mu = 0 ∧ is_nu_tau = 0) →
  create_masked_dict (partial_alter (fun _ => pdg') "in_neutrino_pdg" data_filter)
    is_cc is_nu_e is_nu_mu is_nu_tau
  = create_masked_dict data_filter is_cc is_nu_e is_nu_mu is_nu_tau.
Proof.
  intros Hsel. unfold create_masked_dict.
  assert (∀ key, key ≠ "in_neutrino_pdg" →
            getitem (partial_alter (fun _ => pdg') "in_neutrino_pdg" data_filter) key
            = getitem data_filter key) as Hget.
  { intros key Hkey. unfold getitem. by rewrite lookup_partial_alter_ne. }
  assert (category_mask (partial_alter (fun _ => pdg') "in_neutrino_pdg" data_filter)
            is_cc is_nu_e is_nu_mu is_nu_tau
          = category_mask data_filter is_cc is_nu_e is_nu_mu is_nu_tau) as ->.
  { unfold category_mask. rewrite !Hget by done.
    destruct Hsel as [Hne|(-> & -> & ->)].
    - by destruct (Z.eqb_spec is_cc 1).
    - done. }
  by rewrite !Hget.
Qed.

(** X4.  When [run_number] or [event_id] does not have as many rows as
    [is_cc], the boolean index of lines 110-111 raises [IndexError]; nothing
    is truncated or padded. *)
Theorem misaligned_id_column_raises_IndexError data_filter cc pdg rn ev
    (is_cc is_nu_e is_nu_mu is_nu_tau : Z) :
  data_filter !! "is_cc" = Some cc →
  data_filter !! "in_neutrino_pdg" = Some pdg →
  data_filter !! "run_number" = Some rn →
  data_filter !! "event_id" = Some ev →
  length pdg = length cc →
  is_nu_e + is_nu_mu + is_nu_tau ≤ 1 →
  length rn ≠ length cc ∨ length ev ≠ length cc →
  (create_masked_dict data_filter is_cc is_nu_e is_nu_mu is_nu_tau).2
  = Raise (IndexError "boolean index did not match indexed array").
Proof.
  intros Hcc Hpdg Hrn Hev Lpdg Hsum Hbad. rewrite guard_passes by done.
  destruct (category_mask_aligned data_filter cc pdg is_cc is_nu_e is_nu_mu
              is_nu_tau Hcc Hpdg (eq_sym Lpdg)) as (mask & -> & Lmask).
  cbn [bind_result]. unfold getitem, bool_index. rewrite Hrn, Hev.
  cbn [bind_result].
  destruct (decide (length mask = length rn)) as [Lrn|Lrn]; [|done].
  cbn [bind_result]. rewrite decide_False; [done|]. lia.
Qed.

Lemma zip_with_lookup_true {A B} (f : A → B → bool) (a : list A) (b : list B) (i : nat) :
  zip_with f a b !! i = Some true ↔
  ∃ x y, a !! i = Some x ∧ b !! i = Some y ∧ f x y = true.
Proof.
  rewrite lookup_zip_with_Some. split.
  - intros (x & y & Hf & Hx & Hy). by exists x, y.
  - intros (x & y & Hx & Hy & Hf). by exists x, y.
Qed.

Lemma category_mask_flavor data_filter (fl : flavor) :
  category_mask data_filter 1 (flavor_flags fl).1.1 (flavor_flags fl).1.2
    (flavor_flags fl).2
  = flavor_mask data_filter (pdg_code fl).
Proof. by destruct fl. Qed.

(** X5.  On a table with aligned [is_cc] and [in_neutrino_pdg], the masks of
    two different flavors never select the same row, and every row of a flavor
    mask is a row of the charged-current mask without flavor. *)
Theorem flavor_masks_disjoint_within_cc data_filter cc pdg (fl fl' : flavor)
    (m m' any : list bool) :
  data_filter !! "is_cc" = Some cc →
  data_filter !! "in_neutrino_pdg" = Some pdg →
  length cc = length pdg →
  fl ≠ fl' →
  category_mask data_filter 1 (flavor_flags fl).1.1 (flavor_flags fl).1.2
    (flavor_flags fl).2 = Ok m →
  category_mask data_filter 1 (flavor_flags fl').1.1 (flavor_flags fl').1.2
    (flavor_flags fl').2 = Ok m' →
  category_mask data_filter 1 0 0 0 = Ok any →
  ∀ i : nat,
    ¬ (m !! i = Some true ∧ m' !! i = Some true) ∧
    (m !! i = Some true → any !! i = Some true).
Proof.
  intros Hcc Hpdg Hlen Hne Hm Hm' Hany i.
  rewrite category_mask_flavor in Hm, Hm'.
  rewrite (flavor_mask_aligned _ _ _ (pdg_code fl) Hcc Hpdg Hlen) in Hm.
  rewrite (flavor_mask_aligned _ _ _ (pdg_code fl') Hcc Hpdg Hlen) in Hm'.
  injection Hm as <-. injection Hm' as <-.
  unfold category_mask, getitem in Hany. rewrite Hcc in Hany. simpl in Hany.
  injection Hany as <-. split.
  - intros [Hi Hi']. apply zip_with_lookup_true in Hi as (x & y & Hx & Hy & Hf).
    apply zip_with_lookup_true in Hi' as (x' & y' & Hx' & Hy' & Hf').
    assert (y' = y) as -> by congruence.
    apply andb_true_iff in Hf as [_ Hf]. apply andb_true_iff in Hf' as [_ Hf'].
    apply orb_true_iff in Hf, Hf'.
    assert (∀ a b, eq_int y a = true → eq_int y b = true → a = b) as Hinj
      by (intros a b; apply eq_int_inj).
    destruct fl, fl'; try done; cbn [pdg_code] in *;
      destruct Hf as [Hf|Hf], Hf' as [Hf'|Hf'];
      by pose proof (Hinj _ _ Hf Hf').
  - intros Hi. apply zip_with_lookup_true in Hi as (x & y & Hx & Hy & Hf).
    apply andb_true_iff in Hf as [Hf _].
    apply np_eq_lookup_true. by exists x.
Qed.

(** X6.  When every value of [is_cc] is 0 or 1, the neutral-current mask is the
    row-wise negation of the charged-current mask without flavor: each row is
    in exactly one of the two. *)
Theorem nc_mask_complements_cc_mask data_filter cc (is_cc is_nu_e is_nu_mu is_nu_tau : Z) :
  data_filter !! "is_cc" = Some cc →
  (∀ x, x ∈ cc → eq_int x 0 = true ∨ eq_int x 1 = true) →
  is_cc ≠ 1 →
  ∃ any,
    category_mask data_filter 1 0 0 0 = Ok any ∧
    category_mask data_filter is_cc is_nu_e is_nu_mu is_nu_tau = Ok (negb <$> any).
Proof.
  intros Hcc Hbin Hne. exists (np_eq cc 1). unfold category_mask, getitem.
  rewrite Hcc. simpl. split; [done|].
  destruct (Z.eqb_spec is_cc 1) as [|_]; [done|]. f_equal.
  unfold np_eq. rewrite <- list_fmap_compose.
  apply list_fmap_ext. intros i x Hx. simpl.
  destruct (Hbin x) as [H0|H1]; [by eapply list_elem_of_lookup_2| |].
  - rewrite H0. destruct (eq_int x 1) eqn:H1; [|done].
    by pose proof (eq_int_inj _ _ _ H0 H1).
  - rewrite H1. destruct (eq_int x 0) eqn:H0; [|done].
    by pose proof (eq_int_inj _ _ _ H0 H1).
Qed.

End FilterMore.

(** * Further properties of the loader *)

Section LoaderMore.
Context {T : Type} `{NumpyScalar T}.
Implicit Types (w : world T) (names files listing : list string).
Implicit Types (var file folder_path : string) (num_workers : Z).
Implicit Types (num_files : option Z) (file_selected : option (list string)).
Implicit Types (l : list (ndarray T)).
Implicit Types (entry : gmap string (option (ndarray T))).
Implicit Types (dd : gmap string (list (ndarray T))).
Implicit Types (entries : list (gmap string (option (ndarray T)))).

(** X7.  [load_variables_from_npz] raises in exactly two ways: with the
    exception of [os.listdir], or, when the directory could be listed and
    [num_workers] is below 1, with the [ValueError] of [Pool]. *)
Theorem exceptions_of_load_variables_from_npz w folder_path names num_workers
    num_files file_selected (e : exn) :
  load_variables_from_npz w folder_path names num_workers num_files file_selected
  = Raise e ↔
  listdir w folder_path = Raise e ∨
  (is_Ok (listdir w folder_path) ∧ num_workers < 1 ∧
   e = ValueError "Number of processes must be at least 1").
Proof.
  unfold load_variables_from_npz.
  destruct (listdir w folder_path) as [listing|e'] eqn:Hdir; cbn [bind_result].
  - unfold load_file_list, Pool, cpu_count_or_1.
    assert (1 ≤ match cpu_count w with Some n => Z.pos n | None => 1 end) as Hcpu
      by (destruct (cpu_count w); lia).
    destruct (Z.ltb_spec (Z.min num_workers
                (match cpu_count w with Some n => Z.pos n | None => 1 end)) 1)
      as [Hlt|Hge]; cbn [bind_result].
    + split.
      * intros [= <-]. right. split; [by eexists|]. split; [lia|done].
      * intros [[=]|(_ & _ & ->)]. done.
    + split; [done|]. intros [[=]|(_ & Hlt & _)]. lia.
  - split.
    + intros [= ->]. by left.
    + intros [[= ->]|([a [=]] & _)]. done.
Qed.






(** *** Names requested more than once *)

Lemma append_entry_repeated names dd entry var :
  append_entry names dd entry !! var =
  (fun l => l ++ match entry_value entry var with
                 | Some a => replicate (length (filter (fun v => v = var) names)) a
                 | None => []
                 end) <$> dd !! var.
Proof.
  unfold append_entry, entry_value. revert dd.
  induction names as [|x names IH]; intros dd.
  - cbn. destruct (dd !! var) as [l|]; cbn; [|done].
    by destruct (entry !! var) as [[a|]|]; rewrite app_nil_r.
  - cbn [foldl]. rewrite IH, filter_cons.
    destruct (decide (x = var)) as [->|Hne].
    + destruct (entry !! var) as [[a|]|] eqn:Hvar; [|done|done].
      rewrite lookup_alter_eq. destruct (dd !! var) as [l|]; cbn; [|done].
      by rewrite <- app_assoc.
    + destruct (entry !! x) as [[a|]|]; try done. by rewrite lookup_alter_ne.
Qed.

Lemma aggregate_repeated names entries var :
  var ∈ names →
  aggregate names entries !! var =
  Some (entries ≫= fun entry =>
          match entry_value entry var with
          | Some a => replicate (length (filter (fun v => v = var) names)) a
          | None => []
          end).
Proof.
  intros Hin. unfold aggregate.
  assert (dict_comp (fun _ => @nil (ndarray T)) names !! var = Some []) as Hdd.
  { rewrite dict_comp_lookup. by rewrite decide_True. }
  revert Hdd. generalize (dict_comp (fun _ => @nil (ndarray T)) names).
  assert (∀ dd l0,
    dd !! var = Some l0 →
    foldl (append_entry names) dd entries !! var =
    Some (l0 ++ (entries ≫= fun entry =>
            match entry_value entry var with
            | Some a => replicate (length (filter (fun v => v = var) names)) a
            | None => []
            end))) as Hgen.
  { induction entries as [|e entries IH]; intros dd l0 Hdd; cbn [foldl].
    - by rewrite app_nil_r.
    - erewrite IH; [|by rewrite append_entry_repeated, Hdd].
      csimpl. by rewrite <- app_assoc. }
  intros dd Hdd. by rewrite (Hgen dd []).
Qed.

Lemma bind_fmap_pointwise {A B C} (h : A → B) (f : B → list C) (g : A → list C)
    (xs : list A) :
  (∀ x, f (h x) = g x) → (h <$> xs) ≫= f = xs ≫= g.
Proof.
  intros Hfg. induction xs as [|x xs IH]; [done|]. csimpl. by rewrite Hfg, IH.
Qed.

Lemma data_list_bind {B} w names files var (g : option (ndarray T) → list B) :
  var ∈ names →
  (data_list w names files ≫= fun entry => g (entry_value entry var))
  = (files ≫= fun file =>
       g (if loads_cleanly w names file then member_array w file var else None)).
Proof.
  intros Hin. unfold data_list. apply bind_fmap_pointwise. intros file.
  unfold entry_value. rewrite load_variables_lookup, decide_True by done.
  by destruct (loads_cleanly w names file), (member_array w file var).
Qed.

Lemma contributed_repeated w names files var :
  var ∈ names →
  contributed w names files var
  = omap (fun file => member_array w file var)
         (filter (fun file => loads_cleanly w names file = true) files)
    ≫= replicate (length (filter (fun v => v = var) names)).
Proof.
  intros Hin. unfold contributed. rewrite aggregate_repeated by done.
  cbv [from_option id].
  rewrite (data_list_bind w names files var
             (fun o => match o with
                       | Some a => replicate (length (filter (fun v => v = var) names)) a
                       | None => []
                       end) Hin).
  induction files as [|file files IH]; [done|]. csimpl. rewrite IH, filter_cons.
  destruct (loads_cleanly w names file); cbn.
  - csimpl. by destruct (member_array w file var).
  - done.
Qed.

(** X9.  A name that is listed [k] times in [variable_names] gathers every
    array [k] times in a row: the list of a field is the list of the member
    arrays of the files that load without exception, in file order, each
    repeated as often as the name is requested. *)
Theorem repeated_name_repeats_arrays w names files var :
  var ∈ names →
  contributed w names files var
  = omap (fun file => member_array w file var)
         (filter (fun file => loads_cleanly w names file = true) files)
    ≫= replicate (length (filter (fun v => v = var) names)).
Proof. apply contributed_repeated. Qed.

(** X10.  The arrays gathered over a file list that is the concatenation of
    two lists are those of the first list followed by those of the second. *)
Theorem contributed_app w names files files' var :
  var ∈ names →
  contributed w names (files ++ files') var
  = contributed w names files var ++ contributed w names files' var.
Proof.
  intros Hin. rewrite !contributed_repeated by done.
  by rewrite filter_app, omap_app, bind_app.
Qed.

Lemma foldl_append_entry_filter names (h : string → gmap string (option (ndarray T)))
    (keep : string → bool) files dd :
  (∀ file dd', keep file = false → append_entry names dd' (h file) = dd') →
  foldl (append_entry names) dd (h <$> files)
  = foldl (append_entry names) dd (h <$> filter (fun file => keep file = true) files).
Proof.
  intros Hskip. revert dd.
  induction files as [|file files IH]; intros dd; [done|].
  rewrite filter_cons. csimpl. destruct (keep file) eqn:Hkeep.
  - rewrite decide_True by done. csimpl. apply IH.
  - rewrite decide_False by done. rewrite Hskip by done. apply IH.
Qed.

Lemma aggregate_clean_files w names files :
  aggregate names (data_list w names files)
  = aggregate names
      (data_list w names (filter (fun file => loads_cleanly w names file = true) files)).
Proof.
  unfold aggregate, data_list. apply foldl_append_entry_filter.
  intros file dd Hclean. apply map_eq. intros var.
  apply append_entry_absent. right. intros a.
  rewrite load_variables_lookup, Hclean. by case_decide.
Qed.

(** X11.  Removing from the file list every file whose task raises leaves the
    returned table unchanged. *)
Theorem failing_files_can_be_dropped w names num_workers files printed table :
  load_file_list w names num_workers files = Ok (printed, table) →
  ∃ printed',
    load_file_list w names num_workers
      (filter (fun file => loads_cleanly w names file = true) files)
    = Ok (printed', table).
Proof.
  intros Hrun. pose proof Hrun as Hinv.
  apply load_file_list_inv in Hinv as [-> _].
  unfold load_file_list in *.
  destruct (Pool _) as [[]|e]; cbn [bind_result] in *; [|done].
  eexists. do 2 f_equal. rewrite <- !list_fmap_compose.
  apply (f_equal (fmap convert_value)). symmetry. apply aggregate_clean_files.
Qed.


(** *** Ragged columns *)

Lemma common_prefix_l (a b : list nat) : common_prefix a b `prefix_of` a.
Proof.
  revert b. induction a as [|x a IH]; intros [|y b]; cbn;
    try (by apply prefix_nil).
  case_decide; [|by apply prefix_nil]. by apply prefix_cons.
Qed.

Lemma common_prefix_r (a b : list nat) : common_prefix a b `prefix_of` b.
Proof.
  revert b. induction a as [|x a IH]; intros [|y b]; cbn;
    try (by apply prefix_nil).
  case_decide as Hxy; [|by apply prefix_nil]. subst. by apply prefix_cons.
Qed.

Lemma common_prefix_greatest (p a b : list nat) :
  p `prefix_of` a → p `prefix_of` b → p `prefix_of` common_prefix a b.
Proof.
  revert a b. induction p as [|x p IH]; intros a b Ha Hb; [by apply prefix_nil|].
  destruct Ha as [ka ->], Hb as [kb ->]. cbn. rewrite decide_True by done.
  apply prefix_cons, IH; by eexists.
Qed.

Lemma foldl_common_prefix_prefix (s : list nat) (rest : list (list nat)) :
  foldl common_prefix s rest `prefix_of` s ∧
  ∀ s', s' ∈ rest → foldl common_prefix s rest `prefix_of` s'.
Proof.
  revert s. induction rest as [|x rest IH]; intros s; cbn.
  - split; [done|]. intros s' Hs'. by apply elem_of_nil in Hs'.
  - destruct (IH (common_prefix s x)) as [Hhere Hrest]. split.
    + etrans; [exact Hhere|]. apply common_prefix_l.
    + intros s' [->|Hs']%elem_of_cons; [|by apply Hrest].
      etrans; [exact Hhere|]. apply common_prefix_r.
Qed.

Lemma discovered_dims_prefix (shapes : list (list nat)) (s : list nat) :
  s ∈ shapes → discovered_dims shapes `prefix_of` s.
Proof.
  destruct shapes as [|s0 rest]; [intros Hs; by apply elem_of_nil in Hs|].
  cbn. destruct (foldl_common_prefix_prefix s0 rest) as [Hhere Hrest].
  intros [->|Hs]%elem_of_cons; [done|by apply Hrest].
Qed.

Lemma discovered_dims_greatest (shapes : list (list nat)) (p : list nat) :
  shapes ≠ [] → (∀ s, s ∈ shapes → p `prefix_of` s) →
  p `prefix_of` discovered_dims shapes.
Proof.
  destruct shapes as [|s0 rest]; [done|]. intros _ Hall. cbn.
  assert (p `prefix_of` s0) as Hs0 by (apply Hall; by left).
  assert (∀ s, s ∈ rest → p `prefix_of` s) as Hrest
    by (intros s Hs; apply Hall; by right).
  clear Hall. revert s0 Hs0.
  induction rest as [|x rest IH]; intros s0 Hs0; cbn; [done|].
  apply IH.
  - intros s Hs. apply Hrest. by right.
  - apply common_prefix_greatest; [done|]. apply Hrest. by left.
Qed.

Lemma convert_ragged_first_dimension l (a b : ndarray T) var :
  a ∈ l → b ∈ l →
  arr_shape a ≠ arr_shape b →
  common_prefix (arr_shape a) (arr_shape b) = [] →
  convert_value l = ObjectArray [length l] l ∧ convert_output var l = [].
Proof.
  intros Ha Hb Hne Hnone.
  assert (np_convert l = Ok (ObjectArray [length l] l)) as Hconv.
  { unfold np_convert. rewrite decide_False by (by apply (two_shapes_size l a b)).
    unfold np_array_object. destruct l as [|c l]; [by apply elem_of_nil in Ha|].
    assert (discovered_dims (arr_shape <$> c :: l) = []) as ->; [|done].
    apply prefix_nil_inv. rewrite <- Hnone.
    apply common_prefix_greatest; apply discovered_dims_prefix;
      apply list_elem_of_fmap; by eexists. }
  unfold convert_value, convert_output. by rewrite Hconv.
Qed.

Lemma strip_unit_dims_keeps (n d : nat) (rest : list nat) :
  d ≠ 1%nat → strip_unit_dims n (d :: rest) = d :: rest.
Proof. intros Hd. destruct n; [done|]. cbn. by destruct d as [|[|d]]. Qed.

Lemma convert_shared_first_dimension l (a b : ndarray T) (d : nat) var :
  d ≠ 1%nat →
  (∀ c, c ∈ l → ∃ rest, arr_shape c = d :: rest) →
  a ∈ l → b ∈ l →
  arr_shape a ≠ arr_shape b →
  convert_value l = PyList l ∧
  convert_output var l
  = ["Error processing variable " +:+ var +:+ ": could not broadcast input array"].
Proof.
  intros Hd Hall Ha Hb Hne.
  assert (np_convert l = Raise (ValueError "could not broadcast input array"))
    as Hconv.
  { unfold np_convert. rewrite decide_False by (by apply (two_shapes_size l a b)).
    unfold np_array_object. destruct l as [|c0 l0] eqn:Hl; [by apply elem_of_nil in Ha|].
    rewrite <- Hl in *. clear c0 l0 Hl.
    set (p := discovered_dims (arr_shape <$> l)).
    assert ([d] `prefix_of` p) as [p' Hp].
    { apply discovered_dims_greatest.
      - destruct l; [by apply elem_of_nil in Ha|done].
      - intros s (c & -> & Hc)%list_elem_of_fmap.
        destruct (Hall c Hc) as [rest ->]. by exists rest. }
    assert (∃ c, c ∈ l ∧ arr_shape c ≠ p) as (c & Hc & Hcp).
    { destruct (decide (arr_shape a = p)) as [Hap|Hap]; [|by exists a].
      exists b. split; [done|]. congruence. }
    assert (assignable p (arr_shape c) = false) as Hno.
    { assert (p `prefix_of` arr_shape c) as [k Hk].
      { apply discovered_dims_prefix, list_elem_of_fmap. by exists c. }
      destruct (Hall c Hc) as [rest Hrest].
      unfold assignable. rewrite Hrest, strip_unit_dims_keeps by done.
      rewrite <- Hrest. rewrite bool_decide_eq_false_2; [done|].
      intros Hlen. apply Hcp. rewrite Hk in Hlen |- *.
      rewrite length_app in Hlen. destruct k; [by rewrite app_nil_r|].
      cbn in Hlen. lia. }
    rewrite Hp. cbn [app].
    assert (forallb (assignable (d :: p')) (arr_shape <$> l) = false) as ->; [|done].
    apply not_true_iff_false. intros Hfor.
    rewrite forallb_forall in Hfor.
    assert (assignable (d :: p') (arr_shape c) = true) as Hyes.
    { apply Hfor, list_elem_of_In, list_elem_of_fmap. by exists c. }
    change (d :: p') with ([d] ++ p') in Hyes. rewrite <- Hp in Hyes. congruence. }
  unfold convert_value, convert_output. by rewrite Hconv.
Qed.

Lemma dict_keys_complete names var : var ∈ names → var ∈ dict_keys names.
Proof.
  induction names as [|x names IH]; [done|]. cbn.
  destruct (decide (var = x)) as [->|Hne]; [by left|].
  intros [?|Hin]%elem_of_cons; [done|]. right.
  apply list_elem_of_filter. auto.
Qed.

Lemma load_file_list_printed w names num_workers files printed table var :
  load_file_list w names num_workers files = Ok (printed, table) →
  var ∈ names →
  ∀ line, line ∈ convert_output var (contributed w names files var) →
          line ∈ printed.
Proof.
  intros Hrun Hin line Hline. unfold load_file_list in Hrun.
  destruct (Pool _) as [[]|e]; cbn [bind_result] in Hrun; [|done].
  injection Hrun as <- _. apply elem_of_app. right.
  apply list_elem_of_In, in_concat.
  exists (convert_output var (contributed w names files var)).
  split; [|by apply list_elem_of_In].
  apply list_elem_of_In, list_elem_of_fmap. exists var.
  split; [|by apply dict_keys_complete].
  by rewrite <- !list_fmap_compose.
Qed.

(** X12.  If two arrays gathered for a field differ in shape and share no
    leading dimension (their first dimensions differ, or one of them is
    zero-dimensional), the field's value is the one-dimensional object array
    of the gathered arrays. *)
Theorem ragged_first_dimension_gives_object_array w names num_workers files
    printed table var (a b : ndarray T) :
  load_file_list w names num_workers files = Ok (printed, table) →
  var ∈ names →
  a ∈ contributed w names files var →
  b ∈ contributed w names files var →
  arr_shape a ≠ arr_shape b →
  common_prefix (arr_shape a) (arr_shape b) = [] →
  table !! var
  = Some (ObjectArray [length (contributed w names files var)]
            (contributed w names files var)).
Proof.
  intros Hrun Hin Ha Hb Hne Hnone.
  destruct (convert_ragged_first_dimension _ a b var Ha Hb Hne Hnone)
    as [Hvalue _].
  apply load_file_list_inv in Hrun as [-> _].
  by rewrite table_lookup, Hvalue.
Qed.

(** X13.  If all arrays gathered for a field have the same first dimension
    [d], [d] not 1, and two of them differ in shape, [np.array(...,
    dtype=object)] raises: the field's value stays the Python list of the
    arrays and the line [Error processing variable <var>: ...] is printed. *)
Theorem shared_first_dimension_leaves_list w names num_workers files
    printed table var (a b : ndarray T) (d : nat) :
  load_file_list w names num_workers files = Ok (printed, table) →
  var ∈ names →
  d ≠ 1%nat →
  (∀ c, c ∈ contributed w names files var → ∃ rest, arr_shape c = d :: rest) →
  a ∈ contributed w names files var →
  b ∈ contributed w names files var →
  arr_shape a ≠ arr_shape b →
  table !! var = Some (PyList (contributed w names files var)) ∧
  "Error processing variable " +:+ var +:+ ": could not broadcast input array"
    ∈ printed.
Proof.
  intros Hrun Hin Hd Hall Ha Hb Hne.
  destruct (convert_shared_first_dimension _ a b d var Hd Hall Ha Hb Hne)
    as [Hvalue Hout].
  split.
  - apply load_file_list_inv in Hrun as [-> _]. by rewrite table_lookup, Hvalue.
  - apply (load_file_list_printed _ _ _ _ _ _ var Hrun Hin).
    rewrite Hout. by left.
Qed.

(** *** The cap on the number of files *)

(** X14.  A negative [num_files = k] keeps all discovered files but the last
    [|k|] (none, if there are not more than [|k|]); a [num_files] that is at
    least the number of discovered files changes nothing. *)
Theorem negative_or_large_file_limit w folder_path names num_workers listing (k : Z) :
  listdir w folder_path = Ok listing →
  (k < 0 →
   load_variables_from_npz w folder_path names num_workers (Some k) None
   = load_file_list w names num_workers
       (take (length (discover folder_path listing) - Z.to_nat (- k))
             (discover folder_path listing))) ∧
  (Z.of_nat (length (discover folder_path listing)) ≤ k →
   load_variables_from_npz w folder_path names num_workers (Some k) None
   = load_variables_from_npz w folder_path names num_workers None None).
Proof.
  intros Hdir. unfold load_variables_from_npz. rewrite Hdir. cbn [bind_result].
  unfold select_files, slice_to. split.
  - intros Hk. rewrite (proj2 (Z.leb_gt 0 k)) by done. do 2 f_equal. lia.
  - intros Hk. rewrite (proj2 (Z.leb_le 0 k)) by lia.
    rewrite take_ge by lia. done.
Qed.

End LoaderMore.

(** * Integer data through the float32 cast *)

Lemma round_float32_error (z : Z) :
  Z.abs (round_float32 z - z) * 2 ^ 24 ≤ Z.abs z.
Proof.
  unfold round_float32. destruct (Z.ltb_spec (Z.abs z) (2 ^ 24)) as [Hsmall|Hbig].
  { rewrite Z.sub_diag. cbn. lia. }
  set (n := Z.abs z) in *. cbv zeta.
  set (k := Z.log2 n - 23). set (q := n / 2 ^ k). set (r := n mod 2 ^ k).
  assert (0 < n) as Hn by lia.
  destruct (Z.log2_spec n Hn) as [Hlow Hhigh].
  assert (24 ≤ Z.log2 n) as Hlog.
  { apply Z.log2_le_pow2; lia. }
  assert (1 ≤ k) as Hk1 by (unfold k; lia).
  assert (2 ^ k = 2 * 2 ^ (k - 1)) as Hk.
  { rewrite <- Z.pow_succ_r by lia. f_equal. lia. }
  assert (2 ^ (k - 1) * 2 ^ 24 = 2 ^ Z.log2 n) as HL.
  { rewrite <- Z.pow_add_r by lia. f_equal. unfold k. lia. }
  assert (0 < 2 ^ (k - 1)) as Hhalf by (apply Z.pow_pos_nonneg; lia).
  assert (n = 2 ^ k * q + r) as Hdiv by (apply Z.div_mod; lia).
  assert (0 ≤ r < 2 ^ k) as Hr by (apply Z.mod_pos_bound; lia).
  set (half := 2 ^ (k - 1)) in *.
  set (q' := if (half <? r) || ((r =? half) && Z.odd q) then q + 1 else q).
  assert (Z.abs (q' * 2 ^ k - n) ≤ half) as Herr.
  { unfold q'. destruct (Z.ltb_spec half r) as [Hup|Hdown]; cbn [orb].
    - nia.
    - destruct (Z.eqb_spec r half) as [Heq|Hneq]; cbn [andb]; [destruct (Z.odd q)|];
        nia. }
  assert (Z.abs (Z.sgn z * (q' * 2 ^ k) - z) = Z.abs (q' * 2 ^ k - n)) as ->.
  { unfold n. destruct (Z.sgn_spec z) as [[Hz ->]|[[Hz ->]|[Hz ->]]]; lia. }
  nia.
Qed.

Lemma round_float32_exact (z : Z) : Z.abs z ≤ 2 ^ 24 → round_float32 z = z.
Proof.
  intros Hz. pose proof (round_float32_error z) as Herr.
  assert (Z.abs (round_float32 z - z) * 2 ^ 24 ≤ 2 ^ 24) as Hle by lia.
  destruct (Z.eq_dec (Z.abs z) (2 ^ 24)) as [Heq|Hne].
  - destruct (Z.abs_spec z) as [[_ Habs]|[_ Habs]]; rewrite Habs in Heq.
    + by subst z.
    + assert (z = - 2 ^ 24) as -> by lia. reflexivity.
  - unfold round_float32. by rewrite (proj2 (Z.ltb_lt _ _)) by lia.
Qed.

Lemma fmap_round_float32_exact (vs : list Z) :
  (∀ v, v ∈ vs → Z.abs v ≤ 2 ^ 24) → round_float32 <$> vs = vs.
Proof.
  induction vs as [|v vs IH]; intros Hall; [done|]. csimpl.
  rewrite round_float32_exact by (apply Hall; by left).
  rewrite IH; [done|]. intros v' Hv'. apply Hall. by right.
Qed.

(** X15.  For integer data: when the arrays gathered for a field share one
    shape and all their values are at most 2^24 in absolute value, the stacked
    float32 column holds exactly the source values, in file order. *)
Theorem small_integers_survive_stacking (w : world Z) names num_workers files
    printed table var (s : list nat) :
  load_file_list w names num_workers files = Ok (printed, table) →
  var ∈ names →
  contributed w names files var ≠ [] →
  (∀ a, a ∈ contributed w names files var →
        arr_shape a = s ∧ ∀ v, v ∈ arr_data a → Z.abs v ≤ 2 ^ 24) →
  table !! var
  = Some (NumericArray
            (mk_ndarray np_float32 (length (contributed w names files var) :: s)
               (concat (arr_data <$> contributed w names files var)))).
Proof.
  intros Hrun Hin Hne Hall.
  apply load_file_list_inv in Hrun as [-> _]. rewrite table_lookup by done.
  rewrite (convert_value_one_shape _ s) by (done || intros a Ha; by apply Hall).
  do 4 f_equal. apply list_fmap_ext. intros i a Ha. cbn.
  apply fmap_round_float32_exact, Hall. by eapply list_elem_of_lookup_2.
Qed.

Lemma cast_error_bound (l : list (ndarray Z)) :
  Forall2 (fun out v => Z.abs (out - v) * 2 ^ 24 ≤ Z.abs v)
    (concat ((fun a => astype_float32 (arr_dtype a) <$> arr_data a) <$> l))
    (concat (arr_data <$> l)).
Proof.
  induction l as [|a l IH]; [constructor|]. csimpl. apply Forall2_app; [|done].
  generalize (arr_data a). intros vs.
  induction vs as [|v vs IHv]; csimpl; constructor; [|done].
  apply round_float32_error.
Qed.

Lemma round_float32_finite (z : Z) :
  Z.abs z ≤ 2 ^ 128 - 2 ^ 104 → Z.abs (round_float32 z) ≤ 2 ^ 128 - 2 ^ 104.
Proof.
  intros Hmax. unfold round_float32.
  destruct (Z.ltb_spec (Z.abs z) (2 ^ 24)) as [Hsmall|Hbig]; [done|].
  set (n := Z.abs z) in *. cbv zeta.
  set (k := Z.log2 n - 23). set (q := n / 2 ^ k). set (r := n mod 2 ^ k).
  assert (0 < n) as Hn by lia.
  destruct (Z.log2_spec n Hn) as [Hlow Hhigh].
  assert (24 ≤ Z.log2 n) as Hlog by (apply Z.log2_le_pow2; lia).
  assert (Z.log2 n < 128) as Hlog'.
  { apply Z.log2_lt_pow2; [lia|]. change (2 ^ 128) with (2 ^ 104 * 2 ^ 24). lia. }
  assert (1 ≤ k ≤ 104) as Hk by (unfold k; lia).
  assert (2 ^ k = 2 * 2 ^ (k - 1)) as Hk2.
  { rewrite <- Z.pow_succ_r by lia. f_equal. lia. }
  assert (2 ^ Z.succ (Z.log2 n) = 2 ^ 24 * 2 ^ k) as Htop.
  { rewrite <- Z.pow_add_r by lia. f_equal. unfold k. lia. }
  assert (0 < 2 ^ (k - 1)) as Hhalf by (apply Z.pow_pos_nonneg; lia).
  assert (n = 2 ^ k * q + r) as Hdiv by (apply Z.div_mod; lia).
  assert (0 ≤ r < 2 ^ k) as Hr by (apply Z.mod_pos_bound; lia).
  assert (0 ≤ q < 2 ^ 24) as Hq.
  { split; [apply Z.div_pos; lia|]. apply Z.div_lt_upper_bound; lia. }
  set (half := 2 ^ (k - 1)) in *.
  set (q' := if (half <? r) || ((r =? half) && Z.odd q) then q + 1 else q).
  assert (q ≤ q' ≤ q + 1) as Hq'.
  { unfold q'. destruct ((half <? r) || ((r =? half) && Z.odd q)); lia. }
  assert (0 ≤ q' * 2 ^ k ≤ 2 ^ 128 - 2 ^ 104) as Hres.
  { split; [nia|].
    destruct (Z.eq_dec k 104) as [Hk104|Hk104].
    - rewrite Hk104 in *. 
      assert (q' ≤ 2 ^ 24 - 1); [|change (2 ^ 128) with (2 ^ 24 * 2 ^ 104); nia].
      unfold q'. destruct (Z.ltb_spec half r) as [Hup|Hdown]; cbn [orb].
      + change (2 ^ 128) with (2 ^ 24 * 2 ^ 104) in Hmax. nia.
      + destruct (Z.eqb_spec r half) as [Heq|Hneq]; cbn [andb]; [|lia].
        destruct (Z.odd q); [|lia].
        change (2 ^ 128) with (2 ^ 24 * 2 ^ 104) in Hmax. nia.
    - assert (2 ^ k ≤ 2 ^ 103) as Hpow by (apply Z.pow_le_mono_r; lia).
      assert (q' * 2 ^ k ≤ 2 ^ 24 * 2 ^ 103) by nia.
      change (2 ^ 128) with (2 ^ 24 * 2 ^ 104).
      change (2 ^ 104) with (2 * 2 ^ 103). lia. }
  destruct (Z.sgn_spec z) as [[Hz ->]|[[Hz ->]|[Hz ->]]]; lia.
Qed.

Lemma cast_stays_finite (l : list (ndarray Z)) :
  (∀ a, a ∈ l → ∀ v, v ∈ arr_data a → Z.abs v ≤ 2 ^ 128 - 2 ^ 104) →
  Forall (fun out => Z.abs out ≤ 2 ^ 128 - 2 ^ 104)
    (concat ((fun a => astype_float32 (arr_dtype a) <$> arr_data a) <$> l)).
Proof.
  intros Hall. apply Forall_forall. intros out Hout.
  apply list_elem_of_In, in_concat in Hout as (vs & Hvs & Hout).
  apply list_elem_of_In, list_elem_of_fmap in Hvs as (a & -> & Ha).
  apply list_elem_of_In, list_elem_of_fmap in Hout as (v & -> & Hv).
  apply round_float32_finite. by apply (Hall a).
Qed.

(** X16.  For integer data within the range of float32 (at most
    [2^128 - 2^104] in absolute value): every element of a stacked float32
    column is again within that range and differs from its source value [v]
    by at most [|v| / 2^24]. *)
Theorem stacking_error_bound (w : world Z) names num_workers files
    printed table var (s : list nat) :
  load_file_list w names num_workers files = Ok (printed, table) →
  var ∈ names →
  contributed w names files var ≠ [] →
  (∀ a, a ∈ contributed w names files var →
        arr_shape a = s ∧ ∀ v, v ∈ arr_data a → Z.abs v ≤ 2 ^ 128 - 2 ^ 104) →
  ∃ stacked,
    table !! var = Some (NumericArray stacked) ∧
    Forall (fun out => Z.abs out ≤ 2 ^ 128 - 2 ^ 104) (arr_data stacked) ∧
    Forall2 (fun out v => Z.abs (out - v) * 2 ^ 24 ≤ Z.abs v)
      (arr_data stacked) (concat (arr_data <$> contributed w names files var)).
Proof.
  intros Hrun Hin Hne Hall.
  apply load_file_list_inv in Hrun as [-> _]. rewrite table_lookup by done.
  rewrite (convert_value_one_shape _ s) by (done || intros a Ha; by apply Hall).
  eexists. split; [done|]. split.
  - apply cast_stays_finite. intros a Ha. by apply Hall.
  - apply cast_error_bound.
Qed.

(** * The text table of event identifiers *)

(** *** [strip], [split] *)

Lemma split_from_spaces (s word : string) :
  rstrip s = EmptyString →
  split_from word s = match word with EmptyString => [] | _ => [word] end.
Proof.
  revert word. induction s as [|c s IH]; intros word; cbn; [done|].
  destruct (rstrip s) eqn:Hs; [|done].
  destruct (is_space c); [|done]. intros _.
  destruct word; by rewrite IH.
Qed.

Lemma append_char_nonempty (word : string) (c : ascii) :
  word +:+ String c EmptyString ≠ EmptyString.
Proof. by destruct word. Qed.

Lemma split_from_rstrip (s word : string) :
  split_from word (rstrip s) = split_from word s.
Proof.
  revert word. induction s as [|c s IH]; intros word; cbn; [done|].
  destruct (rstrip s) as [|c' r] eqn:Hs.
  - destruct (is_space c) eqn:Hc; cbn.
    + destruct word; by rewrite split_from_spaces.
    + rewrite Hc. rewrite split_from_spaces by done.
      pose proof (append_char_nonempty word c).
      by destruct (word +:+ String c EmptyString).
  - cbn. destruct (is_space c); [destruct word|]; by rewrite <- IH.
Qed.

Lemma split_from_lstrip (s : string) :
  split_from EmptyString (lstrip s) = split_from EmptyString s.
Proof.
  induction s as [|c s IH]; cbn; [done|].
  destruct (is_space c) eqn:Hc; [done|]. cbn. by rewrite Hc.
Qed.

Lemma py_split_strip (s : string) : py_split (strip s) = py_split s.
Proof. unfold py_split, strip. by rewrite split_from_rstrip, split_from_lstrip. Qed.

Lemma string_app_cons (c : ascii) (s t : string) :
  String c s +:+ t = String c (s +:+ t).
Proof. reflexivity. Qed.

Lemma string_app_empty_r (s : string) : s +:+ EmptyString = s.
Proof. induction s as [|c s IH]; [done|]. by rewrite string_app_cons, IH. Qed.

Lemma string_app_snoc (word : string) (c : ascii) (t : string) :
  (word +:+ String c EmptyString) +:+ t = word +:+ String c t.
Proof.
  induction word as [|c' word IH]; [done|]. by rewrite !string_app_cons, IH.
Qed.

Lemma split_from_word (t word rest : string) :
  all_chars (fun c => negb (is_space c)) t = true →
  split_from word (t +:+ rest) = split_from (word +:+ t) rest.
Proof.
  revert word. induction t as [|c t IH]; intros word Ht.
  - by rewrite string_app_empty_r.
  - rewrite string_app_cons. cbn. cbn in Ht. apply andb_true_iff in Ht as [Hc Ht].
    apply negb_true_iff in Hc. by rewrite Hc, IH, string_app_snoc.
Qed.

Lemma split_from_space (word rest : string) :
  split_from word (String " " rest)
  = match word with
    | EmptyString => split_from EmptyString rest
    | _ => word :: split_from EmptyString rest
    end.
Proof. reflexivity. Qed.

Lemma join_space_cons (t t' : string) (toks : list string) :
  join_space (t :: t' :: toks) = t +:+ " " +:+ join_space (t' :: toks).
Proof. reflexivity. Qed.

Lemma py_split_join (toks : list string) :
  (∀ t, t ∈ toks →
        t ≠ EmptyString ∧ all_chars (fun c => negb (is_space c)) t = true) →
  py_split (join_space toks) = toks.
Proof.
  unfold py_split. induction toks as [|t toks IH]; intros Hall; [done|].
  assert (t ≠ EmptyString ∧ all_chars (fun c => negb (is_space c)) t = true)
    as [Hne Ht] by (apply Hall; by left).
  assert (split_from EmptyString (join_space toks) = toks) as IH'.
  { apply IH. intros t' Ht'. apply Hall. by right. }
  destruct toks as [|t' toks].
  - cbn. rewrite <- (string_app_empty_r t) at 1.
    rewrite split_from_word by done. change (EmptyString +:+ t) with t.
    cbn. by destruct t.
  - rewrite join_space_cons, split_from_word by done.
    change (EmptyString +:+ t) with t.
    change (" " +:+ join_space (t' :: toks))
      with (String " " (join_space (t' :: toks))).
    rewrite split_from_space, IH'. by destruct t.
Qed.

(** *** [str] and [int] *)

Lemma digit_is_plain (c : ascii) :
  is_digit c = true →
  is_space c = false ∧ Ascii.eqb c "_" = false ∧ Ascii.eqb c "-" = false ∧
  Ascii.eqb c "+" = false.
Proof. destruct c as [[] [] [] [] [] [] [] []]; by vm_compute. Qed.

Lemma digits_are_word (s : string) :
  all_chars is_digit s = true → all_chars (fun c => negb (is_space c)) s = true.
Proof.
  induction s as [|c s IH]; cbn; [done|]. intros [Hc Hs]%andb_true_iff.
  destruct (digit_is_plain c Hc) as [-> _]. by apply IH.
Qed.

Lemma uint_digits (d : Decimal.uint) :
  all_chars is_digit (NilEmpty.string_of_uint d) = true.
Proof. induction d; cbn; done. Qed.

Lemma uint_string_nonempty (d : Decimal.uint) :
  d ≠ Decimal.Nil → NilEmpty.string_of_uint d ≠ EmptyString.
Proof. by destruct d. Qed.

Lemma rstrip_word (s : string) :
  all_chars (fun c => negb (is_space c)) s = true → rstrip s = s.
Proof.
  induction s as [|c s IH]; cbn; [done|]. intros [Hc Hs]%andb_true_iff.
  rewrite IH by done. apply negb_true_iff in Hc. rewrite Hc. by destruct s.
Qed.

Lemma strip_word (s : string) :
  all_chars (fun c => negb (is_space c)) s = true → strip s = s.
Proof.
  intros Hs. unfold strip.
  assert (lstrip s = s) as ->.
  { destruct s as [|c s]; [done|]. cbn in *.
    apply andb_true_iff in Hs as [Hc _]. apply negb_true_iff in Hc.
    by rewrite Hc. }
  by apply rstrip_word.
Qed.

Lemma int_space_is_space (c : ascii) : is_int_space c = true → is_space c = true.
Proof. destruct c as [[] [] [] [] [] [] [] []]; by vm_compute. Qed.

Lemma int_strip_word (s : string) :
  all_chars (fun c => negb (is_space c)) s = true → int_rstrip (int_lstrip s) = s.
Proof.
  intros Hs.
  assert (∀ c, negb (is_space c) = true → is_int_space c = false) as Hplain.
  { intros c Hc. destruct (is_int_space c) eqn:Hi; [|done].
    apply int_space_is_space in Hi. by rewrite Hi in Hc. }
  assert (int_lstrip s = s) as ->.
  { destruct s as [|c s]; [done|]. cbn in *.
    apply andb_true_iff in Hs as [Hc _]. by rewrite (Hplain c Hc). }
  induction s as [|c s IH]; cbn; [done|]. cbn in Hs.
  apply andb_true_iff in Hs as [Hc Hs]. rewrite IH by done.
  rewrite (Hplain c Hc). by destruct s.
Qed.

Lemma literal_digits_plain (s : string) :
  all_chars is_digit s = true →
  literal_digits true s = Some s ∧
  (s ≠ EmptyString → literal_digits false s = Some s).
Proof.
  induction s as [|c s IH]; cbn; [done|]. intros [Hc Hs]%andb_true_iff.
  destruct (digit_is_plain c Hc) as (_ & -> & _).
  destruct (IH Hs) as [-> _]. done.
Qed.

Lemma unsigned_literal_uint (d : Decimal.uint) :
  d ≠ Decimal.Nil →
  unsigned_literal (NilEmpty.string_of_uint d) = Some (Z.of_uint d).
Proof.
  intros Hd. unfold unsigned_literal.
  destruct (literal_digits_plain _ (uint_digits d)) as [_ Hlit].
  rewrite Hlit by (by apply uint_string_nonempty). cbn.
  by rewrite NilEmpty.usu.
Qed.

Lemma pos_uint_string (p : positive) :
  NilZero.string_of_uint (Pos.to_uint p) = NilEmpty.string_of_uint (Pos.to_uint p).
Proof.
  pose proof (Unsigned.to_uint_nonnil p). by destruct (Pos.to_uint p).
Qed.

Lemma str_of_int_word (n : Z) :
  str_of_int n ≠ EmptyString ∧
  all_chars (fun c => negb (is_space c)) (str_of_int n) = true.
Proof.
  unfold str_of_int. destruct n as [|p|p]; cbn; [done| |].
  - rewrite pos_uint_string. split.
    + apply uint_string_nonempty, Unsigned.to_uint_nonnil.
    + apply digits_are_word, uint_digits.
  - rewrite pos_uint_string. split; [done|].
    apply digits_are_word, uint_digits.
Qed.

Lemma int_of_str_of_int (n : Z) : int_of_str (str_of_int n) = Returns n.
Proof.
  unfold int_of_str. rewrite int_strip_word by apply str_of_int_word.
  unfold str_of_int. destruct n as [|p|p]; cbn [Z.to_int NilZero.string_of_int];
    [done| |].
  - rewrite pos_uint_string.
    pose proof (uint_string_nonempty _ (Unsigned.to_uint_nonnil p)) as Hne.
    pose proof (uint_digits (Pos.to_uint p)) as Hdig.
    pose proof (unsigned_literal_uint _ (Unsigned.to_uint_nonnil p)) as Hval.
    destruct (NilEmpty.string_of_uint (Pos.to_uint p)) as [|c s]; [done|].
    cbn in Hdig. apply andb_true_iff in Hdig as [Hc _].
    destruct (digit_is_plain c Hc) as (_ & _ & -> & ->). rewrite Hval. cbn.
    f_equal. apply (DecimalZ.of_to (Zpos p)).
  - rewrite pos_uint_string. cbn.
    rewrite unsigned_literal_uint by apply Unsigned.to_uint_nonnil. cbn.
    f_equal. apply (DecimalZ.of_to (Zneg p)).
Qed.

Lemma map_int_of_str (cells : list Z) :
  map_outcome int_of_str (str_of_int <$> cells) = Returns cells.
Proof.
  induction cells as [|n cells IH]; [done|]. csimpl.
  by rewrite int_of_str_of_int, IH.
Qed.

(** *** Writing and reading the table *)

Lemma id_rows_from_total (row : nat → outcome string) (f : nat → string) (i n : nat) :
  (∀ j, row j = Returns (f j)) → id_rows_from row i n = (f <$> seq i n, None).
Proof.
  intros Hrow. revert i. induction n as [|n IH]; intros i; [done|].
  cbn. by rewrite Hrow, IH.
Qed.

Lemma id_row_integers (c0 c1 c2 c3 c4 c5 c6 c7 : list Z) (i : nat) :
  id_row Returns c0 c1 c2 c3 c4 c5 c6 c7 i
  = Returns (join_space (str_of_int <$>
      ((fun col => default 0 (col !! i)) <$> [c0; c1; c2; c3; c4; c5; c6; c7]))).
Proof.
  unfold id_row, id_cell. cbn.
  by destruct (c0 !! i), (c1 !! i), (c2 !! i), (c3 !! i), (c4 !! i), (c5 !! i),
    (c6 !! i), (c7 !! i).
Qed.

Lemma read_written_row (cells : list Z) (rest : list string) :
  length cells = 8%nat →
  read_id_lines (join_space (str_of_int <$> cells) :: rest)
  = ((read_id_lines rest).1,
     match (read_id_lines rest).2 with
     | Returns events => Returns (cells :: events)
     | Raises e => Raises e
     end).
Proof.
  intros Hlen. cbn [read_id_lines].
  rewrite py_split_strip, py_split_join.
  - rewrite decide_True by (by rewrite length_fmap).
    rewrite map_int_of_str. by destruct (read_id_lines rest).
  - intros t (n & -> & _)%list_elem_of_fmap. apply str_of_int_word.
Qed.

Lemma read_written_rows (rows : list (list Z)) :
  (∀ cells, cells ∈ rows → length cells = 8%nat) →
  read_id_lines ((fun cells => join_space (str_of_int <$> cells)) <$> rows)
  = ([], Returns rows).
Proof.
  induction rows as [|cells rows IH]; intros Hall; [done|]. rewrite fmap_cons.
  rewrite read_written_row by (apply Hall; by left).
  rewrite IH; [done|]. intros cells' Hin. apply Hall. by right.
Qed.

Lemma omap_seq_padding (run event : list Z) (n : nat) :
  length run = length event →
  (length run ≤ n)%nat →
  omap (fun j => id_file_name (default 0 (run !! j)) (default 0 (event !! j)))
       (seq 0 n)
  = event_file_names run event.
Proof.
  unfold event_file_names. revert event n.
  induction run as [|r run IH]; intros [|e event] n Hlen Hn; try done.
  - clear. generalize 0%nat.
    induction n as [|n IH]; intros i; [done|]. cbn [seq]. csimpl. apply IH.
  - destruct n as [|n]; [cbn in Hn; lia|].
    cbn [seq]. rewrite <- fmap_S_seq. csimpl. rewrite omap_fmap.
    injection Hlen as Hlen. rewrite <- (IH event n) by (done || cbn in Hn; lia).
    done.
Qed.

Lemma written_lines (run_e event_e run_mu event_mu run_tau event_tau run_nc event_nc : list Z) :
  write_id_events Returns run_e event_e run_mu event_mu run_tau event_tau run_nc event_nc
  = (id_header ::
       ((fun cells => join_space (str_of_int <$> cells)) <$>
        ((fun i => (fun col => default 0 (col !! i)) <$>
                   [run_e; event_e; run_mu; event_mu; run_tau; event_tau; run_nc; event_nc])
         <$> seq 0 (Nat.max (Nat.max (length run_e) (length run_mu))
                            (Nat.max (length run_tau) (length event_nc))))),
     Returns ["File 'id_events.txt' has been saved."]).
Proof.
  unfold write_id_events.
  rewrite (id_rows_from_total _
             (fun i => join_space (str_of_int <$>
                ((fun col => default 0 (col !! i)) <$>
                 [run_e; event_e; run_mu; event_mu; run_tau; event_tau; run_nc; event_nc]))))
    by (intros j; apply id_row_integers).
  by rewrite <- list_fmap_compose.
Qed.

(** X17.  Reading back the file [save_ID_event] writes (integer run numbers and
    event identifiers; the two lists of each category of equal length):
    [get_event_ID] prints nothing and returns the file names of the events
    with a run number other than 0 of one written category, but of the
    category one column pair further: a neutral-current request returns the
    electron events, an electron request the muon events, a muon request the
    tau events and a tau request the neutral-current events. *)
Theorem written_categories_are_read_shifted
    (open_lines : string → outcome (list string)) (filename : string)
    (run_e event_e run_mu event_mu run_tau event_tau run_nc event_nc : list Z)
    (is_cc is_nu_e is_nu_mu is_nu_tau : Z) :
  open_lines filename
  = Returns (write_id_events Returns run_e event_e run_mu event_mu
               run_tau event_tau run_nc event_nc).1 →
  length run_e = length event_e →
  length run_mu = length event_mu →
  length run_tau = length event_tau →
  length run_nc = length event_nc →
  get_event_ID open_lines is_cc is_nu_e is_nu_mu is_nu_tau filename
  = ([], Returns
           match select_neutrino_type is_cc is_nu_e is_nu_mu is_nu_tau with
           | type_NC => event_file_names run_e event_e
           | type_e => event_file_names run_mu event_mu
           | type_mu => event_file_names run_tau event_tau
           | type_tau => event_file_names run_nc event_nc
           end).
Proof.
  intros Hopen He Hmu Htau Hnc. unfold get_event_ID.
  rewrite Hopen, written_lines. cbn [fst].
  rewrite read_written_rows
    by (intros cells (i & -> & _)%list_elem_of_fmap; done).
  f_equal. f_equal. unfold id_file_names. rewrite omap_fmap.
  destruct (select_neutrino_type is_cc is_nu_e is_nu_mu is_nu_tau);
    cbn [neutrino_map Nat.mul Nat.add nth fmap list_fmap];
    apply omap_seq_padding; lia.
Qed.

(** *** Lines without eight fields *)



(** * The further properties on the data sets *)

(** More than one flavor without the charged-current flag: the table has a
    row with [is_cc = 0], and the call returns the empty dictionary. *)
Lemma two_flavors_without_cc_select_nothing :
  Scenario.table !! "is_cc" = Some [1; 1; 0; 1] ∧
  Scenario.table !! "run_number" = Some [1; 1; 2; 2] ∧
  select_rows [1; 1; 2; 2] ((fun x => eq_int x 0) <$> [1; 1; 0; 1]) = [2] ∧
  create_masked_dict Scenario.table 0 1 0 1 = ([msg_many_flavors], Ok ∅).
Proof. repeat split; reflexivity. Qed.

(** On the four-row table: the muon events, all charged-current events and the
    neutral-current events. *)
Lemma create_masked_dict_selects_witness :
  create_masked_dict Scenario.table 1 0 1 0
  = ([], Ok (<["event_id" := [10; 11]]> (<["run_number" := [1; 1]]> ∅))) ∧
  create_masked_dict Scenario.table 1 0 0 0
  = ([msg_no_flavor],
     Ok (<["event_id" := [10; 11; 13]]> (<["run_number" := [1; 1; 2]]> ∅))) ∧
  create_masked_dict Scenario.table 0 0 0 1
  = ([], Ok (<["event_id" := [12]]> (<["run_number" := [2]]> ∅))).
Proof.
  destruct (create_masked_dict_selects Scenario.table [1; 1; 0; 1]
              [14; -14; 14; 12] [1; 1; 2; 2] [10; 11; 12; 13]
              eq_refl eq_refl eq_refl eq_refl eq_refl eq_refl eq_refl)
    as (Hflavor & Hany & Hnc).
  split; [exact (Hflavor nu_mu)|]. split; [exact Hany|].
  apply (Hnc 0 0 0 1); [discriminate | lia].
Defined.

(** C7.  Two archives whose [hits] have the distinct shapes (2,3) and (2,4):
    [np.array(..., dtype=object)] of line 63 raises, line 65 prints the error,
    and the value of [hits] in the returned table is the Python list of the
    two arrays, not an array with dtype=object. *)
Lemma ragged_hits_stay_a_python_list :
  load_variables_from_npz Tracks.w "tracks" ["hits"] 4 None None
  = Ok (["Error processing variable hits: could not broadcast input array"],
        <["hits" := PyList [Tracks.hits_3; Tracks.hits_4]]> ∅).
Proof. reflexivity. Qed.

Lemma create_masked_dict_rows_witness :
  ∃ mask,
    category_mask Scenario.table 1 0 1 0 = Ok mask ∧
    (create_masked_dict Scenario.table 1 0 1 0).2
    = Ok (<["event_id" := select_rows [10; 11; 12; 13] mask]>
            (<["run_number" := select_rows [1; 1; 2; 2] mask]> ∅)) ∧
    zip (select_rows [1; 1; 2; 2] mask) (select_rows [10; 11; 12; 13] mask)
    = select_rows (zip [1; 1; 2; 2] [10; 11; 12; 13]) mask ∧
    select_rows (zip [1; 1; 2; 2] [10; 11; 12; 13]) mask
      `sublist_of` zip [1; 1; 2; 2] [10; 11; 12; 13].
Proof.
  apply (create_masked_dict_rows Scenario.table [1; 1; 0; 1] [14; -14; 14; 12]
           [1; 1; 2; 2] [10; 11; 12; 13] 1 0 1 0);
    (reflexivity || lia).
Defined.

Lemma missing_column_raises_KeyError_witness :
  (create_masked_dict (delete "is_cc" Scenario.table) 0 0 0 0).2
  = Raise (KeyError "is_cc") ∧
  (create_masked_dict (delete "in_neutrino_pdg" Scenario.table) 1 0 0 1).2
  = Raise (KeyError "in_neutrino_pdg").
Proof.
  split.
  - apply (proj1 (missing_column_raises_KeyError
                    (delete "is_cc" Scenario.table) 0 0 0 0 ltac:(lia))).
    reflexivity.
  - apply (proj2 (missing_column_raises_KeyError
                    (delete "in_neutrino_pdg" Scenario.table) 1 0 0 1 ltac:(lia)));
      [by eexists | reflexivity | reflexivity | lia].
Defined.

Lemma selection_without_flavor_ignores_pdg_witness :
  create_masked_dict
    (partial_alter (fun _ => None) "in_neutrino_pdg" Scenario.table) 0 1 0 0
  = create_masked_dict Scenario.table 0 1 0 0.
Proof.
  apply (selection_without_flavor_ignores_pdg Scenario.table None 0 1 0 0).
  left. discriminate.
Defined.

Lemma misaligned_id_column_raises_IndexError_witness :
  (create_masked_dict (<["event_id" := [10; 11; 12]]> Scenario.table) 0 0 0 0).2
  = Raise (IndexError "boolean index did not match indexed array").
Proof.
  apply (misaligned_id_column_raises_IndexError
           (<["event_id" := [10; 11; 12]]> Scenario.table)
           [1; 1; 0; 1] [14; -14; 14; 12] [1; 1; 2; 2] [10; 11; 12] 0 0 0 0);
    try reflexivity; [lia|]. right. cbn. lia.
Defined.

Lemma flavor_masks_disjoint_within_cc_witness :
  category_mask Scenario.table 1 0 1 0 = Ok [true; true; false; false] ∧
  category_mask Scenario.table 1 1 0 0 = Ok [false; false; false; true] ∧
  category_mask Scenario.table 1 0 0 0 = Ok [true; true; false; true] ∧
  ∀ i : nat,
    ¬ ([true; true; false; false] !! i = Some true ∧
       [false; false; false; true] !! i = Some true) ∧
    ([true; true; false; false] !! i = Some true →
     [true; true; false; true] !! i = Some true).
Proof.
  split; [reflexivity|]. split; [reflexivity|]. split; [reflexivity|].
  apply (flavor_masks_disjoint_within_cc Scenario.table [1; 1; 0; 1]
           [14; -14; 14; 12] nu_mu nu_e);
    (reflexivity || discriminate).
Defined.

Lemma nc_mask_complements_cc_mask_witness :
  ∃ any,
    category_mask Scenario.table 1 0 0 0 = Ok any ∧
    category_mask Scenario.table 0 0 1 0 = Ok (negb <$> any).
Proof.
  apply (nc_mask_complements_cc_mask Scenario.table [1; 1; 0; 1] 0 0 1 0);
    [reflexivity | | discriminate].
  intros x Hx. repeat (apply elem_of_cons in Hx as [->|Hx]; [by (left + right)|]).
  by apply elem_of_nil in Hx.
Defined.

Lemma exceptions_of_load_variables_from_npz_witness :
  load_variables_from_npz Scenario.w "data" Scenario.fields 0 None None
  = Raise (ValueError "Number of processes must be at least 1") ∧
  load_variables_from_npz Scenario.w "nowhere" Scenario.fields 0 None None
  = Raise (OSError "[Errno 2] No such file or directory").
Proof.
  split.
  - apply (proj2 (exceptions_of_load_variables_from_npz Scenario.w "data"
                    Scenario.fields 0 None None _)).
    right. split; [by eexists|]. split; [lia|reflexivity].
  - apply (proj2 (exceptions_of_load_variables_from_npz Scenario.w "nowhere"
                    Scenario.fields 0 None None _)).
    left. reflexivity.
Defined.


Lemma repeated_name_repeats_arrays_witness :
  contributed Scenario.w ["is_cc"; "event_id"; "is_cc"]
    ["data/a.npz"; "data/b.npz"; "data/c.npz"] "is_cc"
  = [Scenario.scalar np_bool 1; Scenario.scalar np_bool 1;
     Scenario.scalar np_bool 0; Scenario.scalar np_bool 0].
Proof.
  apply (repeated_name_repeats_arrays Scenario.w ["is_cc"; "event_id"; "is_cc"]
           ["data/a.npz"; "data/b.npz"; "data/c.npz"] "is_cc").
  by left.
Defined.

Lemma contributed_app_witness :
  contributed Scenario.w Scenario.fields
    (["data/a.npz"; "data/c.npz"] ++ ["data/b.npz"]) "event_id"
  = contributed Scenario.w Scenario.fields ["data/a.npz"; "data/c.npz"] "event_id"
    ++ contributed Scenario.w Scenario.fields ["data/b.npz"] "event_id".
Proof.
  apply (contributed_app Scenario.w Scenario.fields).
  apply (bool_decide_unpack _). by vm_compute.
Defined.

Lemma failing_files_can_be_dropped_witness :
  ∃ printed printed' table,
    load_file_list Scenario.w Scenario.fields 28
      ["data/a.npz"; "data/c.npz"; "extra/d.npz"; "data/b.npz"]
    = Ok (printed, table) ∧
    load_file_list Scenario.w Scenario.fields 28 ["data/a.npz"; "extra/d.npz"; "data/b.npz"]
    = Ok (printed', table).
Proof.
  destruct (load_file_list_ok Scenario.w Scenario.fields 28
              ["data/a.npz"; "data/c.npz"; "extra/d.npz"; "data/b.npz"] ltac:(lia))
    as [printed Hrun].
  destruct (failing_files_can_be_dropped Scenario.w Scenario.fields 28
              ["data/a.npz"; "data/c.npz"; "extra/d.npz"; "data/b.npz"]
              printed _ Hrun) as [printed' Hrun'].
  eexists printed, printed', _. split; [exact Hrun | exact Hrun'].
Defined.

Lemma ragged_first_dimension_gives_object_array_witness :
  ∃ printed table,
    load_file_list Scenario.w ["hits"] 28 ["data/a.npz"; "data/b.npz"]
    = Ok (printed, table) ∧
    table !! "hits"
    = Some (ObjectArray [2%nat]
              [Scenario.vector np_float64 [3; 1; 4];
               Scenario.vector np_float64 [2; 7]]).
Proof.
  destruct (load_file_list_ok Scenario.w ["hits"] 28 ["data/a.npz"; "data/b.npz"]
              ltac:(lia)) as [printed Hrun].
  eexists printed, _. split; [exact Hrun|].
  apply (ragged_first_dimension_gives_object_array Scenario.w ["hits"] 28
           ["data/a.npz"; "data/b.npz"] printed _ "hits"
           (Scenario.vector np_float64 [3; 1; 4])
           (Scenario.vector np_float64 [2; 7]) Hrun);
    [by left | by left | right; by left | discriminate | reflexivity].
Defined.

Lemma shared_first_dimension_leaves_list_witness :
  ∃ printed table,
    load_file_list Tracks.w ["hits"] 4 Tracks.files = Ok (printed, table) ∧
    table !! "hits" = Some (PyList [Tracks.hits_3; Tracks.hits_4]) ∧
    "Error processing variable hits: could not broadcast input array" ∈ printed.
Proof.
  destruct (load_file_list_ok Tracks.w ["hits"] 4 Tracks.files ltac:(lia))
    as [printed Hrun].
  eexists printed, _. split; [exact Hrun|].
  apply (shared_first_dimension_leaves_list Tracks.w ["hits"] 4 Tracks.files
           printed _ "hits" Tracks.hits_3 Tracks.hits_4 2 Hrun);
    [by left | lia | | by left | right; by left | discriminate].
  intros c Hc.
  change (c ∈ [Tracks.hits_3; Tracks.hits_4]) in Hc.
  repeat (apply elem_of_cons in Hc as [->|Hc]; [by eexists|]).
  by apply elem_of_nil in Hc.
Defined.

Lemma negative_or_large_file_limit_witness :
  load_variables_from_npz Scenario.w "data" Scenario.fields 28 (Some (-1)) None
  = load_file_list Scenario.w Scenario.fields 28 ["data/a.npz"; "data/b.npz"] ∧
  load_variables_from_npz Scenario.w "data" Scenario.fields 28 (Some 3) None
  = load_variables_from_npz Scenario.w "data" Scenario.fields 28 None None.
Proof.
  destruct (negative_or_large_file_limit Scenario.w "data" Scenario.fields 28
              ["a.npz"; "b.npz"; "c.npz"; "notes.txt"] (-1) eq_refl) as [Hneg _].
  destruct (negative_or_large_file_limit Scenario.w "data" Scenario.fields 28
              ["a.npz"; "b.npz"; "c.npz"; "notes.txt"] 3 eq_refl) as [_ Hlarge].
  split; [apply Hneg; lia | apply Hlarge; by vm_compute].
Defined.

Lemma small_integers_survive_stacking_witness :
  ∃ printed table,
    load_file_list Scenario.w Scenario.fields 28 ["data/a.npz"; "data/b.npz"]
    = Ok (printed, table) ∧
    table !! "run_number"
    = Some (NumericArray (mk_ndarray np_float32 [2%nat] [200025; 200025])).
Proof.
  destruct (load_file_list_ok Scenario.w Scenario.fields 28
              ["data/a.npz"; "data/b.npz"] ltac:(lia)) as [printed Hrun].
  eexists printed, _. split; [exact Hrun|].
  apply (small_integers_survive_stacking Scenario.w Scenario.fields 28
           ["data/a.npz"; "data/b.npz"] printed _ "run_number" [] Hrun);
    [by left | discriminate |].
  intros a Ha.
  change (a ∈ [Scenario.scalar np_int64 200025; Scenario.scalar np_int64 200025])
    in Ha.
  repeat (apply elem_of_cons in Ha as [->|Ha];
          [split; [reflexivity|];
           intros v Hv; change (v ∈ [200025]) in Hv;
           apply list_elem_of_singleton in Hv as ->; by vm_compute|]).
  by apply elem_of_nil in Ha.
Defined.

Lemma stacking_error_bound_witness :
  ∃ printed table stacked,
    load_file_list Scenario.w Scenario.fields 28 ["data/a.npz"; "data/b.npz"]
    = Ok (printed, table) ∧
    table !! "event_id" = Some (NumericArray stacked) ∧
    Forall (fun out => Z.abs out ≤ 2 ^ 128 - 2 ^ 104) (arr_data stacked) ∧
    Forall2 (fun out v => Z.abs (out - v) * 2 ^ 24 ≤ Z.abs v)
      (arr_data stacked) [16777217; 42].
Proof.
  destruct (load_file_list_ok Scenario.w Scenario.fields 28
              ["data/a.npz"; "data/b.npz"] ltac:(lia)) as [printed Hrun].
  destruct (stacking_error_bound Scenario.w Scenario.fields 28
              ["data/a.npz"; "data/b.npz"] printed _ "event_id" [] Hrun)
    as (stacked & Htable & Hrange & Hbound).
  - right. by left.
  - discriminate.
  - intros a Ha.
    change (a ∈ [Scenario.scalar np_int64 16777217; Scenario.scalar np_int64 42])
      in Ha.
    apply elem_of_cons in Ha as [->|Ha].
    { split; [reflexivity|]. intros v Hv. change (v ∈ [16777217]) in Hv.
      apply list_elem_of_singleton in Hv as ->. by vm_compute. }
    apply elem_of_cons in Ha as [->|Ha].
    { split; [reflexivity|]. intros v Hv. change (v ∈ [42]) in Hv.
      apply list_elem_of_singleton in Hv as ->. by vm_compute. }
    by apply elem_of_nil in Ha.
  - eexists printed, _, stacked. split; [exact Hrun|]. split; [exact Htable|].
    split; [exact Hrange | exact Hbound].
Defined.

Lemma written_categories_are_read_shifted_witness :
  Tracks.id_lines
  = ["Run_e EventID_e Run_mu EventID_mu Run_tau EventID_tau";
     "7 70 8 80 0 0 9 90"; "0 0 8 81 0 0 0 0"] ∧
  get_event_ID Tracks.open_lines 1 1 0 0 "id_events.txt"
  = ([], Returns ["8_80.npz"; "8_81.npz"]) ∧
  get_event_ID Tracks.open_lines 0 0 0 0 "id_events.txt"
  = ([], Returns ["7_70.npz"]) ∧
  get_event_ID Tracks.open_lines 1 0 0 1 "id_events.txt"
  = ([], Returns ["9_90.npz"]).
Proof.
  split; [reflexivity|].
  split; [|split];
    apply (written_categories_are_read_shifted Tracks.open_lines "id_events.txt"
             [7] [70] [8; 8] [80; 81] [] [] [9] [90]);
    reflexivity.
Defined.


(** * The keys of a per-file result *)

(** X19.  Whether the archive loads or not, the dictionary a per-file task
    returns has exactly the requested names as its keys, so the lookup
    [entry[var]] of line 51 finds every requested name. *)
Theorem task_result_keys {T : Type} (w : world T) (file : string) (names : list string) :
  dom (load_variables w (file, names)).2 = list_to_set names ∧
  ∀ var, var ∈ names → is_Some ((load_variables w (file, names)).2 !! var).
Proof.
  assert (∀ var, var ∈ names →
            is_Some ((load_variables w (file, names)).2 !! var)) as Hsome.
  { intros var Hin. rewrite load_variables_lookup, decide_True by done.
    by eexists. }
  split; [|done]. apply set_eq. intros var.
  rewrite elem_of_dom, elem_of_list_to_set. split; [|by apply Hsome].
  rewrite load_variables_lookup. case_decide; [done|]. by intros [? ?].
Qed.
